(** * xhsBrowser: the scroll pacer, the like-count normalizer and the capture pass

    A shallow embedding of [src/xhsBrowser.py].  Python values are modelled as
    the interpreter has them: a [str] is a sequence of Unicode code points, a
    [float] is an IEEE-754 binary64 value (kept exactly, as a dyadic rational),
    a [set] of ids is a [gset], and an exception is a value of [exc] carried
    by the [result] type. *)

From Stdlib Require Import ZArith NArith Lia Bool Ascii String.
From stdpp Require Import base option list gmap sets.

Local Open Scope Z_scope.

(** ** Exceptions and fallible computations *)

Inductive exc : Type :=
| ValueError
| OverflowError
| AttributeError
| KeyError
| UnicodeEncodeError
| ParserRejectedMarkup        (* bs4: html.parser gave up on the markup *)
| OtherError (code : N).      (* any other exception raised inside a library call *)

Inductive result (A : Type) : Type :=
| Return (a : A)
| Raise (e : exc).
Arguments Return {A} a.
Arguments Raise {A} e.

#[global] Instance result_ret : MRet result := fun A a => Return a.
#[global] Instance result_bind : MBind result := fun A B k r =>
  match r with
  | Return a => k a
  | Raise e => Raise e
  end.

(** ** Python [str] *)

Module PyStr.

Definition char := N.
Definition str := list char.

(** A [str] literal: the code points of a UTF-8 encoded source literal. *)
Fixpoint utf8_decode (bs : list N) (pend : N) (need : nat) : str :=
  match bs with
  | [] => []
  | b :: bs' =>
      match need with
      | O => if (b <? 128)%N then b :: utf8_decode bs' 0%N O
             else if (b <? 224)%N then utf8_decode bs' (b mod 32)%N 1%nat
             else if (b <? 240)%N then utf8_decode bs' (b mod 16)%N 2%nat
             else utf8_decode bs' (b mod 8)%N 3%nat
      | S O => (pend * 64 + b mod 64)%N :: utf8_decode bs' 0%N O
      | S k => utf8_decode bs' (pend * 64 + b mod 64)%N k
      end
  end.

Fixpoint bytes_of_string (s : string) : list N :=
  match s with
  | EmptyString => []
  | String a s' => N_of_ascii a :: bytes_of_string s'
  end.

Definition py (s : string) : str := utf8_decode (bytes_of_string s) 0%N O.

(** [Py_UNICODE_ISSPACE]: the code points on which [str.isspace] holds. *)
Definition isspace (c : char) : bool :=
  ((9 <=? c) && (c <=? 13) || (28 <=? c) && (c <=? 32)
   || (c =? 133) || (c =? 160) || (c =? 5760)
   || (8192 <=? c) && (c <=? 8202)
   || (c =? 8232) || (c =? 8233) || (c =? 8239) || (c =? 8287)
   || (c =? 12288))%N.

Fixpoint lstrip (s : str) : str :=
  match s with
  | c :: s' => if isspace c then lstrip s' else s
  | [] => []
  end.

Definition rstrip (s : str) : str := rev (lstrip (rev s)).

(** [s.strip()] *)
Definition strip (s : str) : str := rstrip (lstrip s).

(** [s.replace(old, new)] for a one-character [old]; the source only ever
    replaces the one-character patterns '+', '万' and '千'. *)
Fixpoint replace (old : char) (new : str) (s : str) : str :=
  match s with
  | [] => []
  | c :: s' => (if (c =? old)%N then new else [c]) ++ replace old new s'
  end.

(** [c in s] for a one-character [c]. *)
Definition contains_char (c : char) (s : str) : bool :=
  existsb (fun x => (x =? c)%N) s.

Fixpoint starts_with (p s : str) : bool :=
  match p, s with
  | [], _ => true
  | a :: p', b :: s' => (a =? b)%N && starts_with p' s'
  | _ :: _, [] => false
  end.

(** [sub in s] *)
Fixpoint contains (sub s : str) : bool :=
  starts_with sub s ||
  match s with
  | [] => false
  | _ :: s' => contains sub s'
  end.

(** [s.split(sep)] for a one-character [sep]: the pieces between the
    occurrences of [sep]; the result is never empty. *)
Fixpoint split (sep : char) (s : str) : list str :=
  match s with
  | [] => [[]]
  | c :: s' =>
      if (c =? sep)%N then [] :: split sep s'
      else match split sep s' with
           | piece :: rest => (c :: piece) :: rest
           | [] => [[c]]
           end
  end.

(** [pieces[0]] and [pieces[-1]] on the list [split] returns. *)
Definition first_piece (pieces : list str) : str := hd [] pieces.
Definition last_piece (pieces : list str) : str := List.last pieces [].

(** [s.encode()]: UTF-8, which refuses the surrogate code points. *)
Definition encode_char (c : char) : result (list N) :=
  if (c <? 128)%N then Return [c]
  else if (c <? 2048)%N then Return [192 + c / 64; 128 + c mod 64]%N
  else if ((55296 <=? c) && (c <=? 57343))%N then Raise UnicodeEncodeError
  else if (c <? 65536)%N then
    Return [224 + c / 4096; 128 + (c / 64) mod 64; 128 + c mod 64]%N
  else Return [240 + c / 262144; 128 + (c / 4096) mod 64;
               128 + (c / 64) mod 64; 128 + c mod 64]%N.

Fixpoint encode (s : str) : result (list N) :=
  match s with
  | [] => Return []
  | c :: s' => b ← encode_char c; bs ← encode s'; Return (b ++ bs)
  end.

End PyStr.
Import PyStr.


(** ** Python [float]: IEEE-754 binary64 *)

(** The Unicode database of the interpreter: [Py_UNICODE_TODECIMAL] on the
    code points from 128 on (the decimal digits of the other scripts, whose
    set grows from one Unicode version to the next). *)
Class UnicodeDB := { todecimal : char -> option N }.

Module PyFloat.

(** [Finite m e] is the number [m * 2^e].  The sign of a zero is not kept:
    the source only observes a float through [int]. *)
Inductive pyfloat : Type :=
| Finite (m e : Z)
| Inf (neg : bool)
| NaN.

(** [d * 2^k <= n], for [k] of either sign. *)
Definition scaled_le (d n k : Z) : bool :=
  if 0 <=? k then d * 2 ^ k <=? n else d <=? n * 2 ^ (- k).

(** The integer part of the binary logarithm of [n / d], for positive [n], [d]. *)
Definition ilog2 (n d : Z) : Z :=
  let k := Z.log2 n - Z.log2 d in
  if scaled_le d n k then k else k - 1.

(** [n / d] rounded to the nearest integer, ties to the even one. *)
Definition div_rne (n d : Z) : Z :=
  let q := n / d in
  let r := n mod d in
  if 2 * r <? d then q
  else if d <? 2 * r then q + 1
  else if Z.even q then q else q + 1.

(** The binary64 value nearest to [n / d] (for [0 <= n], [0 < d]), negated
    when [neg]: 53 significant bits, exponents from the subnormal -1074 up
    to 971, ties to even, and infinity past the largest finite value. *)
Definition round (neg : bool) (n d : Z) : pyfloat :=
  if n =? 0 then Finite 0 0
  else
    let e := Z.max (ilog2 n d - 52) (-1074) in
    let m := if 0 <=? e then div_rne n (d * 2 ^ e) else div_rne (n * 2 ^ (- e)) d in
    let '(m, e) := if m =? 2 ^ 53 then (2 ^ 52, e + 1) else (m, e) in
    if 971 <? e then Inf neg else Finite (if neg then - m else m) e.

(** A Python [int] used as a float operand. *)
Definition of_Z (z : Z) : pyfloat := round (z <? 0) (Z.abs z) 1.

(** [x * y] *)
Definition fmul (x y : pyfloat) : pyfloat :=
  match x, y with
  | NaN, _ | _, NaN => NaN
  | Inf s, Inf t => Inf (xorb s t)
  | Inf s, Finite m _ | Finite m _, Inf s =>
      if m =? 0 then NaN else Inf (xorb s (m <? 0))
  | Finite m1 e1, Finite m2 e2 =>
      let m := m1 * m2 in
      let e := e1 + e2 in
      if 0 <=? e then round (m <? 0) (Z.abs m * 2 ^ e) 1
      else round (m <? 0) (Z.abs m) (2 ^ (- e))
  end.

(** [int(x)]: truncation toward zero; infinity and NaN have no integer. *)
Definition py_int (x : pyfloat) : result Z :=
  match x with
  | Finite m e => Return (if 0 <=? e then m * 2 ^ e else Z.quot m (2 ^ (- e)))
  | Inf _ => Raise OverflowError
  | NaN => Raise ValueError
  end.

(** *** [float(text)] *)

Definition is_digit (c : char) : bool := ((48 <=? c) && (c <=? 57))%N.

(** [_PyUnicode_TransformDecimalAndSpaceToASCII]: an ASCII text is taken as
    it is; otherwise white space becomes a blank, a decimal digit of any
    script its ASCII digit, and the text is cut at the first other
    character, which becomes '?'. *)
Fixpoint transform_chars `{UnicodeDB} (s : str) : str :=
  match s with
  | [] => []
  | c :: s' =>
      if (c <? 127)%N then c :: transform_chars s'
      else if isspace c then 32%N :: transform_chars s'
      else match todecimal c with
           | Some d => (48 + d)%N :: transform_chars s'
           | None => [63%N]
           end
  end.

Definition transform `{UnicodeDB} (s : str) : str :=
  if forallb (fun c => (c <? 128)%N) s then s else transform_chars s.

(** [_Py_string_to_number_with_underscores]: an underscore is allowed only
    between two digits, and is dropped. *)
Fixpoint drop_underscores (prev : char) (s : str) : option str :=
  match s with
  | [] => if (prev =? 95)%N then None else Some []
  | c :: s' =>
      if (c =? 95)%N then
        if is_digit prev then drop_underscores c s' else None
      else if (prev =? 95)%N && negb (is_digit c) then None
      else cons c <$> drop_underscores c s'
  end.

(** [Py_ISSPACE], the ASCII white space [float] strips at both ends. *)
Definition ascii_space (c : char) : bool :=
  ((9 <=? c) && (c <=? 13) || (c =? 32))%N.

Fixpoint lstrip_ascii (s : str) : str :=
  match s with
  | c :: s' => if ascii_space c then lstrip_ascii s' else s
  | [] => []
  end.

Definition strip_ascii (s : str) : str := rev (lstrip_ascii (rev (lstrip_ascii s))).

Definition parse_sign (s : str) : bool * str :=
  match s with
  | 45%N :: r => (true, r)
  | 43%N :: r => (false, r)
  | _ => (false, s)
  end.

(** The leading digits of [s], most significant first, and what follows. *)
Fixpoint span_digits (s : str) : list Z * str :=
  match s with
  | c :: s' =>
      if is_digit c then
        let '(ds, r) := span_digits s' in (Z.of_N c - 48 :: ds, r)
      else ([], s)
  | [] => ([], [])
  end.

Definition digits_value (ds : list Z) : Z :=
  fold_left (fun acc d => 10 * acc + d) ds 0.

Definition lower (c : char) : char :=
  if ((65 <=? c) && (c <=? 90))%N then (c + 32)%N else c.

(** The correctly rounded value of [digits * 10^exp10]. *)
Definition decimal (neg : bool) (ds : list Z) (exp10 : Z) : pyfloat :=
  if 0 <=? exp10 then round neg (digits_value ds * 10 ^ exp10) 1
  else round neg (digits_value ds) (10 ^ (- exp10)).

Definition parse_exponent (neg : bool) (ds : list Z) (nfrac : Z) (s : str)
  : option pyfloat :=
  match s with
  | [] => Some (decimal neg ds (- nfrac))
  | c :: t =>
      if ((c =? 101) || (c =? 69))%N then
        let '(eneg, t1) := parse_sign t in
        match span_digits t1 with
        | ((_ :: _) as ed, []) =>
            let x := digits_value ed in
            Some (decimal neg ds ((if eneg then - x else x) - nfrac))
        | _ => None
        end
      else None
  end.

(** The grammar of a float literal: a sign, then [inf], [infinity] or [nan]
    in any case, or digits with an optional point and an optional exponent;
    the whole text has to be consumed. *)
Definition parse_literal (s : str) : option pyfloat :=
  let '(neg, r) := parse_sign s in
  let lw := map lower r in
  if bool_decide (lw = py "inf") || bool_decide (lw = py "infinity") then Some (Inf neg)
  else if bool_decide (lw = py "nan") then Some NaN
  else
    let '(ip, r1) := span_digits r in
    let '(fp, r2) := match r1 with
                     | 46%N :: t => span_digits t
                     | _ => ([], r1)
                     end in
    match ip ++ fp with
    | [] => None
    | ds => parse_exponent neg ds (Z.of_nat (length fp)) r2
    end.

(** [float(text)] *)
Definition py_float `{UnicodeDB} (text : str) : result pyfloat :=
  match drop_underscores 0%N (transform text) with
  | None => Raise ValueError
  | Some s =>
      match parse_literal (strip_ascii s) with
      | Some x => Return x
      | None => Raise ValueError
      end
  end.

End PyFloat.
Import PyFloat.

(** ** The like-count normalizer *)

Definition plus_sign : char := 43%N.   (* '+' *)
Definition wan : char := 19975%N.      (* '万' *)
Definition qian : char := 21315%N.     (* '千' *)

(** [except ValueError: return 0] *)
Definition or_zero (attempt : result Z) : result Z :=
  match attempt with
  | Raise ValueError => Return 0
  | r => r
  end.

(** [BrowserTab._parse_like_count] *)
Definition _parse_like_count `{UnicodeDB} (text : str) : result Z :=
  let text := strip (replace plus_sign [] text) in
  or_zero
    (like_count ←
       (if contains_char wan text then
          x ← py_float (replace wan [] text); Return (fmul x (of_Z 10000))
        else if contains_char qian text then
          x ← py_float (replace qian [] text); Return (fmul x (of_Z 1000))
        else py_float text);
     py_int like_count).


(** A decimal digit, as a number. *)
Definition is_decimal_digit (d : Z) : Prop := 0 <= d <= 9.

(** The text of a numeral with the decimal digits [ds]. *)
Definition numeral (ds : list Z) : str := map (fun d => Z.to_N (48 + d)) ds.

(** The integer nearest to [x * k] (ties to even), for a finite [x]. *)
Definition nearest_multiple (x : pyfloat) (k : Z) : option Z :=
  match x with
  | Finite m e =>
      Some (if 0 <=? e then m * 2 ^ e * k else div_rne (m * k) (2 ^ (- e)))
  | _ => None
  end.

(** The claim that a count with the suffix '万' is rounded to the nearest
    integer. *)
Definition normalizer_rounds `{UnicodeDB} : Prop :=
  forall (num : str) (x : pyfloat) (n : Z),
    py_float num = Return x ->
    nearest_multiple x 10000 = Some n ->
    _parse_like_count (num ++ [wan]) = Return n.

(** The text [_parse_like_count] hands to [float]. *)
Definition float_operand (text : str) : str :=
  let text := strip (replace plus_sign [] text) in
  if contains_char wan text then replace wan [] text
  else if contains_char qian text then replace qian [] text
  else text.

(** ** [hashlib.md5] *)

Module Md5.

Definition word (z : Z) : Z := z mod 2 ^ 32.

Definition rotl (x c : Z) : Z :=
  word (Z.lor (Z.shiftl x c) (Z.shiftr x (32 - c))).

Definition lnot32 (x : Z) : Z := Z.lxor x (2 ^ 32 - 1).

(** The additive constants, [floor (2^32 * |sin (i + 1)|)]. *)
Definition K : list Z :=
  [3614090360; 3905402710; 606105819; 3250441966;
   4118548399; 1200080426; 2821735955; 4249261313;
   1770035416; 2336552879; 4294925233; 2304563134;
   1804603682; 4254626195; 2792965006; 1236535329;
   4129170786; 3225465664; 643717713; 3921069994;
   3593408605; 38016083; 3634488961; 3889429448;
   568446438; 3275163606; 4107603335; 1163531501;
   2850285829; 4243563512; 1735328473; 2368359562;
   4294588738; 2272392833; 1839030562; 4259657740;
   2763975236; 1272893353; 4139469664; 3200236656;
   681279174; 3936430074; 3572445317; 76029189;
   3654602809; 3873151461; 530742520; 3299628645;
   4096336452; 1126891415; 2878612391; 4237533241;
   1700485571; 2399980690; 4293915773; 2240044497;
   1873313359; 4264355552; 2734768916; 1309151649;
   4149444226; 3174756917; 718787259; 3951481745].

(** The rotation amounts. *)
Definition shifts : list Z :=
  [7; 12; 17; 22; 7; 12; 17; 22; 7; 12; 17; 22; 7; 12; 17; 22;
   5; 9; 14; 20; 5; 9; 14; 20; 5; 9; 14; 20; 5; 9; 14; 20;
   4; 11; 16; 23; 4; 11; 16; 23; 4; 11; 16; 23; 4; 11; 16; 23;
   6; 10; 15; 21; 6; 10; 15; 21; 6; 10; 15; 21; 6; 10; 15; 21].

(** The message followed by the bit 1, zeros up to 56 modulo 64, and its
    length in bits as 64 little-endian bits. *)
Definition le_bytes (n : nat) (z : Z) : list Z :=
  map (fun i => Z.shiftr z (8 * Z.of_nat i) mod 256) (seq 0 n).

Definition pad (msg : list Z) : list Z :=
  let len := Z.of_nat (length msg) in
  let zeros := Z.to_nat ((55 - len) mod 64) in
  msg ++ [128] ++ repeat 0 zeros ++ le_bytes 8 (8 * len).

Fixpoint le_words (bs : list Z) : list Z :=
  match bs with
  | b0 :: b1 :: b2 :: b3 :: bs' =>
      (b0 + 256 * b1 + 65536 * b2 + 16777216 * b3) :: le_words bs'
  | _ => []
  end.

Definition step (M : list Z) (st : Z * Z * Z * Z) (i : nat) : Z * Z * Z * Z :=
  let '(A, B, C, D) := st in
  let i' := Z.of_nat i in
  let '(F, g) :=
    if i' <? 16 then (Z.lor (Z.land B C) (Z.land (lnot32 B) D), i')
    else if i' <? 32 then (Z.lor (Z.land D B) (Z.land (lnot32 D) C), (5 * i' + 1) mod 16)
    else if i' <? 48 then (Z.lxor (Z.lxor B C) D, (3 * i' + 5) mod 16)
    else (Z.lxor C (Z.lor B (lnot32 D)), (7 * i') mod 16) in
  let F' := word (F + A + nth i K 0 + nth (Z.to_nat g) M 0) in
  (D, word (B + rotl F' (nth i shifts 0)), B, C).

Definition compress (h : Z * Z * Z * Z) (M : list Z) : Z * Z * Z * Z :=
  let '(a0, b0, c0, d0) := h in
  let '(A, B, C, D) := fold_left (step M) (seq 0 64) h in
  (word (a0 + A), word (b0 + B), word (c0 + C), word (d0 + D)).

Fixpoint chunks (n : nat) (ws : list Z) : list (list Z) :=
  match n with
  | O => []
  | S n' => match ws with
            | [] => []
            | _ => take 16 ws :: chunks n' (drop 16 ws)
            end
  end.

Definition digest (msg : list Z) : list Z :=
  let ws := le_words (pad msg) in
  let '(a, b, c, d) :=
    fold_left compress (chunks (length ws) ws)
              (1732584193, 4023233417, 2562383102, 271733878) in
  le_bytes 4 a ++ le_bytes 4 b ++ le_bytes 4 c ++ le_bytes 4 d.

Definition hex_digit (z : Z) : char :=
  Z.to_N (if z <? 10 then 48 + z else 87 + z).

(** [hashlib.md5(data).hexdigest()] *)
Definition hexdigest (data : list N) : str :=
  flat_map (fun b => [hex_digit (b / 16); hex_digit (b mod 16)])
           (digest (map Z.of_N data)).

End Md5.


(** ** The scroll pacer: [AutoScrollController] *)

Module AutoScrollController.

(** A value inside the report of a page script; of a nested list or object
    only its truth value is kept. *)
Inductive jsvalue : Type :=
| JNull
| JBool (b : bool)
| JNum (z : Z)
| JStr (s : str)
| JContainer (nonempty : bool).

(** The truth value Python gives the converted value. *)
Definition truthy (v : jsvalue) : bool :=
  match v with
  | JNull => false
  | JBool b => b
  | JNum z => negb (z =? 0)
  | JStr s => negb (bool_decide (s = []))
  | JContainer b => b
  end.

(** What [runJavaScript] hands to its callback: a dict, or a value of another
    type ([None], a bool, a number, a string, a list), which has no [get]. *)
Inductive report : Type :=
| Dict (fields : gmap str jsvalue)
| NotADict.

(** The callables connected to the timer's [timeout] signal. *)
Inductive slot : Type := scroll_step_slot.

Record QTimer : Type := {
  interval : Z;
  running : bool;
  timeout : list slot          (* the connections, in connection order *)
}.

Record controller : Type := {
  timer : QTimer;
  last_height : Z;
  retry_count : Z;
  active : bool
}.

(** The controller with what the event loop holds for it: the page scripts
    whose callback has not run yet, the pending [QTimer.singleShot] retries,
    and how often [self.callback] has been called. *)
Record world : Type := {
  ctl : controller;
  in_flight : nat;
  single_shots : nat;
  callback_calls : nat
}.

Definition with_ctl (c : controller) (w : world) : world :=
  {| ctl := c; in_flight := in_flight w; single_shots := single_shots w;
     callback_calls := callback_calls w |}.

(** [__init__] *)
Definition init : world :=
  {| ctl := {| timer := {| interval := 3000; running := false; timeout := [] |};
               last_height := 0; retry_count := 0; active := false |};
     in_flight := 0; single_shots := 0; callback_calls := 0 |}.

(** [start] *)
Definition start (w : world) : world :=
  let c := ctl w in
  if negb (active c) then
    with_ctl {| timer := {| interval := interval (timer c);
                            running := true;
                            timeout := timeout (timer c) ++ [scroll_step_slot] |};
                last_height := last_height c; retry_count := retry_count c;
                active := true |} w
  else w.

(** [stop] *)
Definition stop (w : world) : world :=
  let c := ctl w in
  if active c then
    with_ctl {| timer := {| interval := interval (timer c);
                            running := false;
                            timeout := timeout (timer c) |};
                last_height := last_height c; retry_count := retry_count c;
                active := false |} w
  else w.

(** [_scroll_step]: hands the script to the page, [_handle_scroll] being its
    callback. *)
Definition _scroll_step (w : world) : world :=
  {| ctl := ctl w; in_flight := S (in_flight w); single_shots := single_shots w;
     callback_calls := callback_calls w |}.

Definition loading_key : str := py "loading".

(** [_handle_scroll] *)
Definition _handle_scroll (reply : report) (w : world) : world * result unit :=
  let w1 := {| ctl := ctl w; in_flight := in_flight w; single_shots := single_shots w;
               callback_calls := S (callback_calls w) |} in
  match reply with
  | NotADict => (w1, Raise AttributeError)
  | Dict fields =>
      if bool_decide (fields = ∅) then (w1, Return ())
      else if truthy (default (JBool false) (fields !! loading_key)) then
        ({| ctl := ctl w1; in_flight := in_flight w1;
            single_shots := S (single_shots w1);
            callback_calls := callback_calls w1 |}, Return ())
      else (w1, Return ())
  end.

(** What the event loop does to the controller. *)
Inductive event : Type :=
| Start                      (* a call of [start] *)
| Stop                       (* a call of [stop] *)
| Timeout                    (* the interval of the timer elapses *)
| Answer (reply : report)    (* a page script finishes *)
| Shot.                      (* a pending single shot fires *)

Definition call_slot (s : slot) (w : world) : world :=
  match s with scroll_step_slot => _scroll_step w end.

Definition step (w : world) (ev : event) : world :=
  match ev with
  | Start => start w
  | Stop => stop w
  | Timeout =>
      if running (timer (ctl w)) then
        fold_left (fun w s => call_slot s w) (timeout (timer (ctl w))) w
      else w
  | Answer r =>
      match in_flight w with
      | O => w
      | S n =>
          fst (_handle_scroll r {| ctl := ctl w; in_flight := n;
                                   single_shots := single_shots w;
                                   callback_calls := callback_calls w |})
      end
  | Shot =>
      match single_shots w with
      | O => w
      | S n => _scroll_step {| ctl := ctl w; in_flight := in_flight w;
                               single_shots := n;
                               callback_calls := callback_calls w |}
      end
  end.

Definition run (evs : list event) (w : world) : world := fold_left step evs w.

(** The idle-to-active transitions of the state machine of the spec along a
    trace: a [Start] counts when the pacer is idle. *)
Fixpoint activations_from (is_active : bool) (evs : list event) : nat :=
  match evs with
  | [] => 0
  | Start :: evs' => (if is_active then 0 else 1) + activations_from true evs'
  | Stop :: evs' => activations_from false evs'
  | _ :: evs' => activations_from is_active evs'
  end.

Definition activations (evs : list event) : nat := activations_from false evs.

(** The claim that a report arriving while the pacer is idle does nothing. *)
Definition late_report_is_noop : Prop :=
  forall (evs : list event) (r : report),
    let w := run evs init in
    active (ctl w) = false ->
    callback_calls (step w (Answer r)) = callback_calls w /\
    single_shots (step w (Answer r)) = single_shots w.

(** The timer runs exactly while the pacer is active. *)
Definition timer_follows_flag (w : world) : Prop :=
  running (timer (ctl w)) = active (ctl w).

(** Whether [_handle_scroll] reads the report as still loading. *)
Definition reports_loading (r : report) : bool :=
  match r with
  | Dict fields => truthy (default (JBool false) (fields !! loading_key))
  | NotADict => false
  end.

(** The trace start, stop, start, ... with [k] calls of [start]. *)
Fixpoint restarted (k : nat) : list event :=
  match k with
  | O => []
  | S O => [Start]
  | S k' => restarted k' ++ [Stop; Start]
  end.

(** A report as the page script builds it. *)
Definition page_report (height item_count : Z) (loading : bool) : report :=
  Dict (<[py "height" := JNum height]>
        (<[py "item_count" := JNum item_count]>
         (<[py "loading" := JBool loading]> ∅))).

End AutoScrollController.


(** ** The libraries the capture pass calls *)

(** A CSS selector of the shape the source uses: compound selectors joined by
    the descendant combinator. *)
Inductive attr_test : Type :=
| has_attr (name : str)                  (* [name] *)
| attr_contains (name value : str).      (* [name*="value"] *)

Record compound : Type := {
  tag_name : option str;
  classes : list str;
  attr_tests : list attr_test
}.

Definition selector := list compound.

Definition by_class (cs : list str) : compound :=
  {| tag_name := None; classes := cs; attr_tests := [] |}.

(** BeautifulSoup, as far as the source uses it. *)
Class Bs4 := {
  Tag : Type;
  BeautifulSoup : str -> result Tag;     (* [BeautifulSoup(html, 'html.parser')] *)
  select : Tag -> selector -> list Tag;  (* [tag.select(sel)], in document order *)
  attrs : Tag -> str -> option str;      (* the attributes of the tag *)
  get_text : Tag -> bool -> str          (* [tag.get_text(strip=b)] *)
}.

(** [urllib.parse.urljoin] and the clock: [time k] is what the [k]-th reading
    of [int(time.time())] returns. *)
Class Env := {
  urljoin : str -> str -> result str;
  time : nat -> Z
}.

Section Library.
Context `{Bs4}.

(** [tag.select_one(sel)] *)
Definition select_one (t : Tag) (sel : selector) : option Tag := head (select t sel).

(** [tag.get(name, '')] *)
Definition get (t : Tag) (name : str) : str := default [] (attrs t name).

(** [tag[name]] *)
Definition getitem (t : Tag) (name : str) : result str :=
  match attrs t name with
  | Some v => Return v
  | None => Raise KeyError
  end.

End Library.

(** ** The capture pass: [BrowserTab] *)

Module Note.
(** The dict [_extract_note_info] returns. *)
Record t : Type := {
  id : str;
  title : str;
  url : str;
  author : str;
  author_link : str;
  likes : Z;
  cover : str;
  images : list str;
  timestamp : Z
}.
End Note.

Module BrowserTab.

Record tab : Type := {
  collected_notes : gset str;
  clock_reads : nat       (* how often the clock has been read *)
}.

(** What a pass does to the outside. *)
Inductive effect : Type :=
| dataCaptured (notes : list Note.t)      (* [self.dataCaptured.emit({'notes': notes})] *)
| log_error (e : exc)                     (* [logging.error] in the handler of one fragment *)
| status_text (new total : nat)           (* the text of the status label *)
| progress_value (v : Z)
| progress_later (ms v : Z).              (* [QTimer.singleShot(ms, ...)] on the progress bar *)

(** [__init__] *)
Definition init : tab := {| collected_notes := ∅; clock_reads := 0 |}.

(** The names [BrowserTab] binds: its signals, its methods and the attributes
    its instances are given.  What it inherits from [QWidget] is the API of
    Qt. *)
Definition attributes : list string :=
  ["dataCaptured"; "statusUpdated"; "__init__"; "_init_ui"; "_init_web_engine";
   "_init_signals"; "toggle_monitoring"; "_start_monitoring"; "_stop_monitoring";
   "load_url"; "on_page_loaded"; "handle_content_loaded"; "start_data_collection";
   "check_page_status"; "capture_data"; "parse_html"; "_extract_note_info";
   "_parse_like_count"; "_generate_note_id"; "_extract_text"; "_extract_attr";
   "_parse_number"; "handle_new_content";
   "collected_notes"; "scroll_controller"; "status_checker"; "control_frame";
   "url_input"; "toggle_btn"; "progress"; "status_label"; "web_view"; "comm";
   "channel"]%string.

(** The lookup [self.name] starts a call with; the call itself is not part of
    it. *)
Definition lookup_attribute (name : string) : result unit :=
  if existsb (String.eqb name) attributes then Return () else Raise AttributeError.

Definition sel_note_item : selector :=      (* 'section.note-item' *)
  [{| tag_name := Some (py "section"); classes := [py "note-item"]; attr_tests := [] |}].
Definition sel_note_link : selector :=      (* 'a.cover.mask[href*="xsec_token="]' *)
  [{| tag_name := Some (py "a"); classes := [py "cover"; py "mask"];
      attr_tests := [attr_contains (py "href") (py "xsec_token=")] |}].
Definition sel_author : selector :=         (* '.author-wrapper .author[href]' *)
  [by_class [py "author-wrapper"];
   {| tag_name := None; classes := [py "author"]; attr_tests := [has_attr (py "href")] |}].
Definition sel_name : selector := [by_class [py "name"]].                  (* '.name' *)
Definition sel_like_count : selector :=     (* '.like-wrapper .count' *)
  [by_class [py "like-wrapper"]; by_class [py "count"]].
Definition sel_like_wrapper : selector := [by_class [py "like-wrapper"]].  (* '.like-wrapper' *)
Definition sel_cover_img : selector :=      (* '.cover.mask img' *)
  [by_class [py "cover"; py "mask"];
   {| tag_name := Some (py "img"); classes := []; attr_tests := [] |}].
Definition sel_title : selector := [by_class [py "title"]].                (* '.title' *)
Definition sel_img_src : selector :=        (* 'img[src]' *)
  [{| tag_name := Some (py "img"); classes := []; attr_tests := [has_attr (py "src")] |}].

Definition base_url : str := py "https://www.xiaohongshu.com".
Definition question_mark : char := 63%N.   (* '?' *)
Definition slash : char := 47%N.           (* '/' *)

Section Pass.
Context `{UnicodeDB} `{Bs4} `{Env}.

(** [_extract_text] *)
Definition _extract_text (soup : Tag) (sel : selector) : str :=
  match select_one soup sel with
  | Some elem => strip (get_text elem false)
  | None => []
  end.

(** [[img['src'] for img in imgs]] *)
Fixpoint src_of_each (imgs : list Tag) : result (list str) :=
  match imgs with
  | [] => Return []
  | img :: imgs' =>
      src ← getitem img (py "src"); rest ← src_of_each imgs'; Return (src :: rest)
  end.

(** [_extract_note_info]; [now] is the reading of the clock. *)
Definition _extract_note_info (item : Tag) (base_url note_id full_url : str) (now : Z)
  : result Note.t :=
  let author_tag := select_one item sel_author in
  author_url ← match author_tag with
               | Some a => href ← getitem a (py "href"); urljoin base_url href
               | None => Return []
               end;
  author_name ← match author_tag with
                | Some a => match select_one a sel_name with
                            | Some n => Return (get_text n true)
                            | None => Raise AttributeError
                            end
                | None => Return []
                end;
  like_text ← match select_one item sel_like_wrapper with
              | Some _ => match select_one item sel_like_count with
                          | Some c => Return (get_text c true)
                          | None => Raise AttributeError
                          end
              | None => Return (py "0")
              end;
  likes ← _parse_like_count like_text;
  cover_url ← match select_one item sel_cover_img with
              | Some cover_img => getitem cover_img (py "src")
              | None => Return []
              end;
  let title := _extract_text item sel_title in
  images ← src_of_each (select item sel_img_src);
  Return {| Note.id := note_id; Note.title := title; Note.url := full_url;
            Note.author := author_name; Note.author_link := author_url;
            Note.likes := likes; Note.cover := cover_url; Note.images := images;
            Note.timestamp := now |}.

(** The short id of a resolved link: the digest of the last path segment of
    the link without its query. *)
Definition note_id_of (full_url : str) : result str :=
  let note_core_id :=
    last_piece (split slash (first_piece (split question_mark full_url))) in
  data ← encode note_core_id;
  Return (take 8 (Md5.hexdigest data)).

(** The body of the loop of [parse_html] for one fragment: [None] when the
    fragment is passed over. *)
Definition note_of_item (st : tab) (item : Tag) : result (option Note.t) :=
  let style := get item (py "style") in
  if contains (py "display: none") style || contains (py "visibility: hidden") style
  then Return None
  else
    match select_one item sel_note_link with
    | None => Return None
    | Some note_link =>
        href ← getitem note_link (py "href");
        full_url ← urljoin base_url href;
        note_id ← note_id_of full_url;
        if bool_decide (note_id ∈ collected_notes st) then Return None
        else
          note_data ← _extract_note_info item base_url note_id full_url
                                          (time (clock_reads st));
          Return (Some note_data)
    end.

(** The loop of [parse_html]: the state after it, the notes appended and the
    errors logged. *)
Fixpoint collect (items : list Tag) (st : tab) : tab * list Note.t * list effect :=
  match items with
  | [] => (st, [], [])
  | item :: items' =>
      match note_of_item st item with
      | Return (Some note_data) =>
          let st1 := {| collected_notes := collected_notes st ∪ {[ Note.id note_data ]};
                        clock_reads := S (clock_reads st) |} in
          let '(st2, notes, fx) := collect items' st1 in
          (st2, note_data :: notes, fx)
      | Return None => collect items' st
      | Raise e =>
          let '(st2, notes, fx) := collect items' st in
          (st2, notes, log_error e :: fx)
      end
  end.

(** [parse_html] *)
Definition parse_html (st : tab) (html : str) : tab * list effect * result unit :=
  match BeautifulSoup html with
  | Return soup =>
      let '(st', notes, logged) := collect (select soup sel_note_item) st in
      let fx := match notes with
                | [] => []
                | _ => [dataCaptured notes;
                        status_text (length notes) (size (collected_notes st'));
                        progress_value 100;
                        progress_later 1500 80]
                end in
      (st', logged ++ fx, Return ())
  | Raise e =>
      (* the handler: [self.handle_html_error(e, ...)] *)
      (st, [], lookup_attribute "handle_html_error")
  end.

(** The events a pass hands to the sink. *)
Definition emitted (fx : list effect) : list (list Note.t) :=
  omap (fun f => match f with dataCaptured notes => Some notes | _ => None end) fx.

(** The notes one pass appends: its batch. *)
Definition batch (st : tab) (html : str) : list Note.t :=
  match BeautifulSoup html with
  | Return soup => snd (fst (collect (select soup sel_note_item) st))
  | Raise _ => []
  end.

(** Passes one after the other, with everything they do to the outside. *)
Fixpoint run_passes (htmls : list str) (st : tab) : tab * list effect :=
  match htmls with
  | [] => (st, [])
  | html :: htmls' =>
      let '(st1, fx1, _) := parse_html st html in
      let '(st2, fx2) := run_passes htmls' st1 in
      (st2, fx1 ++ fx2)
  end.

(** A fragment whose id is in the dedup index already. *)
Definition is_duplicate (st : tab) (item : Tag) : Prop :=
  exists (note_link : Tag) (href full_url note_id : str),
    select_one item sel_note_link = Some note_link /\
    getitem note_link (py "href") = Return href /\
    urljoin base_url href = Return full_url /\
    note_id_of full_url = Return note_id /\
    note_id ∈ collected_notes st.

(** The claim that every fragment yields a record the first time it is fed
    to the extractor and nothing the second time. *)
Definition extraction_idempotent : Prop :=
  forall (st : tab) (item : Tag),
    exists (note_data : Note.t),
      let '(st1, notes1, _) := collect [item] st in
      notes1 = [note_data] /\
      Note.id note_data ∈ collected_notes st1 /\
      snd (fst (collect [item] st1)) = [].

End Pass.
End BrowserTab.

(** ** A document tree to run the capture pass on *)

Module MiniSoup.

(** The tree html.parser builds: elements with their attributes in source
    order, and the strings between them. *)
Local Unset Elimination Schemes.
Inductive node : Type :=
| Element (name : str) (attributes : list (str * str)) (children : list node)
| Text (s : str).
Local Set Elimination Schemes.

Definition head_of := (str * list (str * str))%type.

(** A tag knows the elements above it, the nearest first. *)
Record tag : Type := {
  ancestors : list head_of;
  here : node
}.

Definition lookup_attr (name : str) (al : list (str * str)) : option str :=
  snd <$> find (fun kv => bool_decide (fst kv = name)) al.

(** The runs of characters between white space: the values of [class]. *)
Fixpoint words_from (cur : str) (s : str) : list str :=
  match s with
  | [] => match cur with [] => [] | _ => [rev cur] end
  | c :: s' =>
      if isspace c then
        match cur with
        | [] => words_from [] s'
        | _ => rev cur :: words_from [] s'
        end
      else words_from (c :: cur) s'
  end.

Definition class_list (al : list (str * str)) : list str :=
  words_from [] (default [] (lookup_attr (py "class") al)).

Definition test_attr (al : list (str * str)) (t : attr_test) : bool :=
  match t with
  | has_attr name => bool_decide (is_Some (lookup_attr name al))
  | attr_contains name value =>
      match lookup_attr name al with
      | Some v => contains value v
      | None => false
      end
  end.

Definition matches_compound (c : compound) (h : head_of) : bool :=
  match tag_name c with
  | Some n => bool_decide (n = fst h)
  | None => true
  end
  && forallb (fun cl => bool_decide (cl ∈ class_list (snd h))) (classes c)
  && forallb (test_attr (snd h)) (attr_tests c).

(** The compounds left of the last one, the nearest first, against the
    ancestors: each has to match an ancestor above the previous match. *)
Fixpoint matches_ancestors (outer : list compound) (anc : list head_of) : bool :=
  match outer with
  | [] => true
  | c :: outer' =>
      (fix find (anc : list head_of) : bool :=
         match anc with
         | [] => false
         | a :: anc' =>
             if matches_compound c a then matches_ancestors outer' anc'
             else find anc'
         end) anc
  end.

Definition head_of_node (n : node) : option head_of :=
  match n with
  | Element name al _ => Some (name, al)
  | Text _ => None
  end.

(** The elements below a node, in document order. *)
Fixpoint descendants (anc : list head_of) (n : node) : list tag :=
  match n with
  | Text _ => []
  | Element name al children =>
      let anc' := (name, al) :: anc in
      flat_map (fun c =>
                  match c with
                  | Element _ _ _ => [{| ancestors := anc'; here := c |}]
                  | Text _ => []
                  end ++ descendants anc' c) children
  end.

Definition matches (sel : selector) (t : tag) : bool :=
  match rev sel, head_of_node (here t) with
  | c :: outer, Some h => matches_compound c h && matches_ancestors outer (ancestors t)
  | _, _ => false
  end.

Definition select_tags (t : tag) (sel : selector) : list tag :=
  filter (fun d => matches sel d = true) (descendants (ancestors t) (here t)).

Definition attr_of (t : tag) (name : str) : option str :=
  match here t with
  | Element _ al _ => lookup_attr name al
  | Text _ => None
  end.

(** The strings below a node, in document order. *)
Fixpoint strings (n : node) : list str :=
  match n with
  | Text s => [s]
  | Element _ _ children => flat_map strings children
  end.

Definition text_of (t : tag) (strip_each : bool) : str :=
  if strip_each then
    concat (filter (fun s => s <> []) (map strip (strings (here t))))
  else concat (strings (here t)).

Definition document (body : list node) : tag :=
  {| ancestors := []; here := Element (py "[document]") [] body |}.

(** The parser, on the pages of a table: the tree of each markup, or the
    exception it is refused with. *)
Definition parse (pages : list (str * result (list node))) (html : str) : result tag :=
  match find (fun p => bool_decide (fst p = html)) pages with
  | Some (_, Return body) => Return (document body)
  | Some (_, Raise e) => Raise e
  | None => Return (document [Text html])
  end.

Definition bs4 (pages : list (str * result (list node))) : Bs4 :=
  {| Tag := tag; BeautifulSoup := parse pages; select := select_tags;
     attrs := attr_of; get_text := text_of |}.

Definition attr (name value : string) : str * str := (py name, py value).

Definition el (name : string) (al : list (str * str)) (children : list node) : node :=
  Element (py name) al children.

End MiniSoup.

(** ** Pages of the explore feed *)

Module Fixture.
Import MiniSoup BrowserTab.

(** [urljoin] on what the pages below link to: a path from the root is put
    behind the origin of the base, a complete link is kept. *)
Definition join (base url : str) : result str :=
  match url with
  | 47%N :: 47%N :: _ => Return (py "https:" ++ url)
  | 47%N :: _ => Return (base ++ url)
  | _ => Return url
  end.

Definition env : Env := {| urljoin := join; time := fun k => 1700000000 + Z.of_nat k |}.

Definition ascii_digits : UnicodeDB := {| todecimal := fun _ => None |}.

(** A complete post. *)
Definition post (style : list (str * str)) (href title name count : string) : node :=
  el "section" (attr "class" "note-item" :: style)
     [el "div" []
        [el "a" [attr "class" "cover mask ld"; attr "href" href]
            [el "img" [attr "src" "https://ci.xiaohongshu.com/cover.jpg"] []];
         el "div" [attr "class" "footer"]
            [el "a" [attr "class" "title"] [el "span" [] [Text (py title)]];
             el "div" [attr "class" "author-wrapper"]
                [el "a" [attr "class" "author"; attr "href" "/user/profile/u1"]
                    [el "span" [attr "class" "name"] [Text (py name)]];
                 el "span" [attr "class" "like-wrapper like-active"]
                    [el "span" [attr "class" "count"] [Text (py count)]]]]]].

(** A post whose like wrapper has no count yet. *)
Definition post_without_count (href : string) : node :=
  el "section" [attr "class" "note-item"]
     [el "a" [attr "class" "cover mask"; attr "href" href] [];
      el "span" [attr "class" "like-wrapper"] []].

Definition hidden_post : node :=
  post [attr "style" "display: none;"] "/explore/000aaa?xsec_token=H" "h" "n" "7".
Definition post_abc : node := post [] "/explore/abc123?xsec_token=X" "First" "ann" "1.2万+".
Definition post_def : node := post [] "/explore/def456?xsec_token=Y" "Second" "bob" "35".
Definition post_minus : node := post [] "/explore/ghi789?xsec_token=Z" "Third" "cy" "-5".

(** The markup of each page stands for the serialisation of its tree. *)
Definition pages : list (str * result (list node)) :=
  [(py "feed", Return [hidden_post; post_abc; post_def]);
   (py "pair", Return [post_abc; post_def]);
   (py "partial", Return [post_without_count "/explore/abc123?xsec_token=X"; post_def]);
   (py "hidden", Return [hidden_post]);
   (py "minus", Return [post_minus]);
   (py "<![x]>", Raise ParserRejectedMarkup)].

Definition soup : Bs4 := bs4 pages.

(** The record of [post_def] when the clock reads [now]. *)
Definition note_def (now : Z) : Note.t :=
  {| Note.id := py "f26c2f43";
     Note.title := py "Second";
     Note.url := py "https://www.xiaohongshu.com/explore/def456?xsec_token=Y";
     Note.author := py "bob";
     Note.author_link := py "https://www.xiaohongshu.com/user/profile/u1";
     Note.likes := 35;
     Note.cover := py "https://ci.xiaohongshu.com/cover.jpg";
     Note.images := [py "https://ci.xiaohongshu.com/cover.jpg"];
     Note.timestamp := now |}.

(** A fragment as [select] finds it at the top of a page. *)
Definition top (fragment : node) : tag :=
  {| ancestors := [(py "[document]", [])]; here := fragment |}.

End Fixture.


(** ** The sign of a like count *)

Definition minus_sign : char := 45%N.   (* '-' *)

(** A float that is not below zero: NaN counts, it becomes 0. *)
Definition not_negative (x : pyfloat) : Prop :=
  match x with
  | Finite m _ => 0 <= m
  | Inf neg => neg = false
  | NaN => True
  end.

(** ** Traces of the pacer *)

Module PacerMore.
Import AutoScrollController.

(** [n] rounds of a report followed by the retry it books. *)
Fixpoint retry_rounds (r : report) (n : nat) : list event :=
  match n with
  | O => []
  | S n' => Answer r :: Shot :: retry_rounds r n'
  end.

Definition is_start (ev : event) : bool :=
  match ev with Start => true | _ => false end.

End PacerMore.


(** ** The shape of an id, the records of a session *)

(** A lowercase hexadecimal digit. *)
Definition is_hex_digit (c : char) : bool :=
  ((48 <=? c) && (c <=? 57) || (97 <=? c) && (c <=? 102))%N.

Module BrowserTabMore.
Import BrowserTab.
Section PassMore.
Context `{UnicodeDB} `{Bs4} `{Env}.

(** The test [parse_html] skips a hidden fragment by. *)
Definition hidden (item : Tag) : bool :=
  contains (py "display: none") (get item (py "style"))
  || contains (py "visibility: hidden") (get item (py "style")).

(** All the records a list of effects hands to the sink, in order. *)
Definition records (fx : list effect) : list Note.t := concat (emitted fx).

End PassMore.
End BrowserTabMore.


(** ** The table of notes: [NotesTable] and [MainWindow] *)

(** The cells of the columns 1 to 7 of the row of a note.  Of the calls that
    build them two can raise: [str(note['likes'])], on an integer of more
    digits than the interpreter converts, and
    [time.localtime(note['timestamp'])], on a time the platform does not
    represent. *)
Class Widgets := {
  fill_row : Note.t -> result unit
}.

Module NotesTable.

(** [self.data], a dict from id to note: its entries in insertion order. *)
Definition dict := list (str * Note.t).

(** [key in d] *)
Definition dict_has (key : str) (d : dict) : bool :=
  existsb (fun kv => bool_decide (fst kv = key)) d.

(** [d[key]] *)
Definition dict_getitem (key : str) (d : dict) : result Note.t :=
  match find (fun kv => bool_decide (fst kv = key)) d with
  | Some (_, note) => Return note
  | None => Raise KeyError
  end.

(** The table as the code reads it back: the dict, and the text of the ID
    cell of each row.  The rows are listed in the order of insertion; the
    widget may show them in another order, sorting being enabled. *)
Record table : Type := {
  data : dict;
  id_cells : list str
}.

(** [__init__] *)
Definition init : table := {| data := []; id_cells := [] |}.

Section Table.
Context `{Widgets}.

(** [update_data]: the note is stored and its ID cell set before the other
    cells of its row are built. *)
Fixpoint update_data (notes : list Note.t) (t : table) : table * result unit :=
  match notes with
  | [] => (t, Return ())
  | note :: notes' =>
      if dict_has (Note.id note) (data t) then update_data notes' t
      else
        let t1 := {| data := data t ++ [(Note.id note, note)];
                     id_cells := id_cells t ++ [take 6 (Note.id note)] |} in
        match fill_row note with
        | Return _ => update_data notes' t1
        | Raise e => (t1, Raise e)
        end
  end.

(** [MainWindow.handle_new_data], on the notes of one [dataCaptured] event. *)
Definition handle_new_data (notes : list Note.t) (t : table) : table * result unit :=
  update_data notes t.

(** The events of the sink one after the other, up to the first that
    raises. *)
Fixpoint deliver_batches (batches : list (list Note.t)) (t : table)
  : table * result unit :=
  match batches with
  | [] => (t, Return ())
  | notes :: batches' =>
      match handle_new_data notes t with
      | (t1, Return _) => deliver_batches batches' t1
      | (t1, Raise e) => (t1, Raise e)
      end
  end.

(** The table after the events of a list of effects have been delivered. *)
Definition deliver (fx : list BrowserTab.effect) (t : table) : table * result unit :=
  deliver_batches (BrowserTab.emitted fx) t.

(** The rows of a list of notes can all be built. *)
Definition rows_build (notes : list Note.t) : Prop :=
  Forall (fun n => fill_row n = Return ()) notes.

End Table.

(** [show_detail]: the note the dialog is opened on; [shown] is the column
    of the ID cells as the widget shows it. *)
Definition show_detail (row : nat) (shown : list str) (d : dict) : result Note.t :=
  match shown !! row with
  | Some note_id => dict_getitem note_id d
  | None => Raise AttributeError      (* [self.item(row, 0)] is [None] *)
  end.

(** An object of the exported file. *)
Record exported : Type := {
  e_id : str;
  e_title : str;
  e_author : str;
  e_author_link : str;
  e_note_link : str;
  e_likes : Z;
  e_cover : str;
  e_timestamp : Z
}.

(** [MainWindow.export_data]: the list handed to [json.dump]. *)
Definition export_data (t : table) : list exported :=
  map (fun '(note_id, note) =>
         {| e_id := note_id;
            e_title := Note.title note;
            e_author := Note.author note;
            e_author_link := Note.author_link note;
            e_note_link := Note.url note;
            e_likes := Note.likes note;
            e_cover := Note.cover note;
            e_timestamp := Note.timestamp note |})
      (data t).

(** The keys of a dict, in order. *)
Definition keys (d : dict) : list str := map fst d.

(** The entry [update_data] makes for a note. *)
Definition entry (note : Note.t) : str * Note.t := (Note.id note, note).

(** The table that holds the notes of a list, each with a row. *)
Definition table_of (notes : list Note.t) : table :=
  {| data := map entry notes;
     id_cells := map (fun n => take 6 (Note.id n)) notes |}.

(** What holds of a table whatever was delivered: each row shows the first
    6 characters of the key of its entry. *)
Definition cells_follow_keys (t : table) : Prop :=
  id_cells t = map (take 6) (keys (data t)).

End NotesTable.


(** ** The monitoring of the page: [BrowserTab] and [WebComm] *)

Module Monitor.

Definition explore_url : str := py "https://www.xiaohongshu.com/explore".

(** What the methods write to the widgets. *)
Inductive ui_write : Type :=
| button_text (s : str)       (* [self.toggle_btn.setText(s)] *)
| label_text (s : str)        (* [self.status_label.setText(s)] *)
| progress_bar (v : Z).       (* [self.progress.setValue(v)] *)

(** The tab with what the event loop and the page hold for it. *)
Record app : Type := {
  scroll_controller : AutoScrollController.world;
  status_checker : bool;      (* whether the timer of the status check runs *)
  url_input : str;            (* the text of the input line *)
  capture : BrowserTab.tab;   (* the index and the clock of the passes *)
  loads : list str;           (* the urls handed to [web_view.load], in order *)
  reloads : nat;              (* the calls of [web_view.reload] *)
  content_probes : nat;       (* probes of the page that [handle_content_loaded] waits for *)
  status_probes : nat;        (* probes that the callback of [check_page_status] waits for *)
  loading_monitors : nat;     (* the scripts [start_data_collection] has installed *)
  direct_captures : nat;      (* the calls of [capture_data] by the tab itself *)
  passes : nat;               (* the snapshots [parse_html] has been run on *)
  fx : list BrowserTab.effect;  (* what the passes did to the outside *)
  ui : list ui_write          (* what the methods of the monitoring wrote *)
}.

(** [__init__], with [_init_ui] and [_init_web_engine]. *)
Definition init : app :=
  {| scroll_controller := AutoScrollController.init;
     status_checker := false; url_input := []; capture := BrowserTab.init;
     loads := [explore_url]; reloads := 0; content_probes := 0; status_probes := 0;
     loading_monitors := 0; direct_captures := 0; passes := 0; fx := [];
     ui := [button_text (py "正在监控"); label_text (py "就绪")] |}.

Definition with_controller (w : AutoScrollController.world) (m : app) : app :=
  {| scroll_controller := w;
     status_checker := status_checker m; url_input := url_input m; capture := capture m;
     loads := loads m; reloads := reloads m; content_probes := content_probes m;
     status_probes := status_probes m; loading_monitors := loading_monitors m;
     direct_captures := direct_captures m; passes := passes m; fx := fx m; ui := ui m |}.

Definition with_checker (b : bool) (m : app) : app :=
  {| scroll_controller := scroll_controller m;
     status_checker := b; url_input := url_input m; capture := capture m;
     loads := loads m; reloads := reloads m; content_probes := content_probes m;
     status_probes := status_probes m; loading_monitors := loading_monitors m;
     direct_captures := direct_captures m; passes := passes m; fx := fx m; ui := ui m |}.

Definition with_input (text : str) (m : app) : app :=
  {| scroll_controller := scroll_controller m;
     status_checker := status_checker m; url_input := text; capture := capture m;
     loads := loads m; reloads := reloads m; content_probes := content_probes m;
     status_probes := status_probes m; loading_monitors := loading_monitors m;
     direct_captures := direct_captures m; passes := passes m; fx := fx m; ui := ui m |}.

(** [self.web_view.load(QUrl(url))] *)
Definition load (url : str) (m : app) : app :=
  {| scroll_controller := scroll_controller m;
     status_checker := status_checker m; url_input := url_input m; capture := capture m;
     loads := loads m ++ [url]; reloads := reloads m; content_probes := content_probes m;
     status_probes := status_probes m; loading_monitors := loading_monitors m;
     direct_captures := direct_captures m; passes := passes m; fx := fx m; ui := ui m |}.

(** [self.web_view.reload()] *)
Definition reload (m : app) : app :=
  {| scroll_controller := scroll_controller m;
     status_checker := status_checker m; url_input := url_input m; capture := capture m;
     loads := loads m; reloads := S (reloads m); content_probes := content_probes m;
     status_probes := status_probes m; loading_monitors := loading_monitors m;
     direct_captures := direct_captures m; passes := passes m; fx := fx m; ui := ui m |}.

Definition with_probes (content status : nat) (m : app) : app :=
  {| scroll_controller := scroll_controller m;
     status_checker := status_checker m; url_input := url_input m; capture := capture m;
     loads := loads m; reloads := reloads m; content_probes := content;
     status_probes := status; loading_monitors := loading_monitors m;
     direct_captures := direct_captures m; passes := passes m; fx := fx m; ui := ui m |}.

(** The script of [start_data_collection], which has no callback. *)
Definition install_loading_monitor (m : app) : app :=
  {| scroll_controller := scroll_controller m;
     status_checker := status_checker m; url_input := url_input m; capture := capture m;
     loads := loads m; reloads := reloads m; content_probes := content_probes m;
     status_probes := status_probes m; loading_monitors := S (loading_monitors m);
     direct_captures := direct_captures m; passes := passes m; fx := fx m; ui := ui m |}.

(** [capture_data]: asks the page for its markup, [parse_html] being run on
    the answer. *)
Definition capture_data (m : app) : app :=
  {| scroll_controller := scroll_controller m;
     status_checker := status_checker m; url_input := url_input m; capture := capture m;
     loads := loads m; reloads := reloads m; content_probes := content_probes m;
     status_probes := status_probes m; loading_monitors := loading_monitors m;
     direct_captures := S (direct_captures m); passes := passes m; fx := fx m;
     ui := ui m |}.

Definition write (ws : list ui_write) (m : app) : app :=
  {| scroll_controller := scroll_controller m;
     status_checker := status_checker m; url_input := url_input m; capture := capture m;
     loads := loads m; reloads := reloads m; content_probes := content_probes m;
     status_probes := status_probes m; loading_monitors := loading_monitors m;
     direct_captures := direct_captures m; passes := passes m; fx := fx m;
     ui := ui m ++ ws |}.

(** [self.scroll_controller.active] *)
Definition monitoring (m : app) : bool :=
  AutoScrollController.active (AutoScrollController.ctl (scroll_controller m)).

(** The calls of [capture_data] so far: those of the controller, whose
    callback it is, and those of the tab. *)
Definition capture_requests (m : app) : nat :=
  (AutoScrollController.callback_calls (scroll_controller m) + direct_captures m)%nat.

(** [_start_monitoring] *)
Definition _start_monitoring (m : app) : app :=
  let text := strip (url_input m) in
  let url := if bool_decide (text = []) then explore_url else text in
  write [button_text (py "停止监控"); label_text (py "初始化页面加载...");
         progress_bar 20]
        (load url m).

(** [_stop_monitoring] *)
Definition _stop_monitoring (m : app) : app :=
  write [button_text (py "开始监控"); label_text (py "监控已停止"); progress_bar 0]
        (with_checker false
           (with_controller (AutoScrollController.stop (scroll_controller m)) m)).

(** [toggle_monitoring] *)
Definition toggle_monitoring (m : app) : app :=
  if monitoring m then write [button_text (py "开始监控")] (_stop_monitoring m)
  else write [button_text (py "正在监控")] (_start_monitoring m).

(** [load_url] *)
Definition load_url (m : app) : app := _start_monitoring m.

(** [on_page_loaded] *)
Definition on_page_loaded (success : bool) (m : app) : app :=
  if success then with_probes (S (content_probes m)) (status_probes m) m
  else write [label_text (py "页面加载失败"); progress_bar 0] m.

(** [start_data_collection] *)
Definition start_data_collection (m : app) : app :=
  let m1 := install_loading_monitor m in
  let m2 := with_checker true m1 in
  let m3 := with_controller (AutoScrollController.start (scroll_controller m2)) m2 in
  let m4 := capture_data m3 in
  write [label_text (py "数据收集进行中..."); progress_bar 60] m4.

(** [handle_content_loaded] *)
Definition handle_content_loaded (has_content : AutoScrollController.jsvalue) (m : app)
  : app :=
  if AutoScrollController.truthy has_content then
    start_data_collection (write [label_text (py "页面内容已加载"); progress_bar 40] m)
  else write [label_text (py "正在重新加载页面...")] (reload m).

(** [check_page_status] *)
Definition check_page_status (m : app) : app :=
  with_probes (content_probes m) (S (status_probes m)) m.

(** The callback of [check_page_status]. *)
Definition show_page_status (loading : AutoScrollController.jsvalue) (m : app) : app :=
  write [label_text (if AutoScrollController.truthy loading
                     then py "页面正在加载..." else py "数据收集进行中...")] m.

(** [handle_new_content] *)
Definition handle_new_content (message : str) (m : app) : app :=
  if bool_decide (message = py "newContent") then capture_data m else m.

(** The methods of the tab that are handed over as callbacks. *)
Inductive method : Type := parse_html_method | capture_data_method.

(** A call [f()]: [parse_html] takes the markup, and the call without it
    raises [TypeError]. *)
Definition call_without_arguments (f : method) (m : app) : option app :=
  match f with
  | capture_data_method => Some (capture_data m)
  | parse_html_method => None
  end.

(** [WebComm]: its callback. *)
Record WebComm : Type := { callback : method }.

(** [self.comm = WebComm(self.parse_html)] *)
Definition comm : WebComm := {| callback := parse_html_method |}.

(** [WebComm.capture_trigger]: the call of the callback, then the signal
    that [handle_new_content] is connected to; when the call raises, the
    signal is not emitted. *)
Definition capture_trigger (c : WebComm) (m : app) : app :=
  match call_without_arguments (callback c) m with
  | Some m1 => handle_new_content (py "newContent") m1
  | None => m
  end.

(** What reaches the tab from the user, the page and the event loop. *)
Inductive event : Type :=
| Click                                   (* the button is clicked *)
| ReturnPressed                           (* return is pressed in the input line *)
| Edit (text : str)                       (* the user edits the input line *)
| LoadFinished (success : bool)           (* [loadFinished] of the page *)
| ContentProbe (has_content : AutoScrollController.jsvalue)
                                          (* the answer to the probe of [on_page_loaded] *)
| CheckerTimeout                          (* the interval of the status check elapses *)
| StatusProbe (loading : AutoScrollController.jsvalue)
                                          (* the answer to the probe of [check_page_status] *)
| Tick                                    (* the interval of the controller elapses *)
| ScrollReport (reply : AutoScrollController.report)   (* a scroll script finishes *)
| Retry                                   (* a single shot of the controller fires *)
| Html (html : str)                       (* the page hands over its markup *)
| NewContent.                             (* the page calls [webComm.capture_trigger] *)

Section App.
Context `{UnicodeDB} `{Bs4} `{Env}.

(** The callback of [capture_data]: [parse_html] on the markup; what it
    raises ends in the event loop. *)
Definition parse_html_directly (html : str) (m : app) : app :=
  let pass := BrowserTab.parse_html (capture m) html in
  {| scroll_controller := scroll_controller m;
     status_checker := status_checker m; url_input := url_input m;
     capture := fst (fst pass);
     loads := loads m; reloads := reloads m; content_probes := content_probes m;
     status_probes := status_probes m; loading_monitors := loading_monitors m;
     direct_captures := direct_captures m; passes := S (passes m);
     fx := fx m ++ snd (fst pass);
     ui := ui m |}.

Definition step (m : app) (ev : event) : app :=
  match ev with
  | Click => toggle_monitoring m
  | ReturnPressed => load_url m
  | Edit text => with_input text m
  | LoadFinished success => on_page_loaded success m
  | ContentProbe has_content =>
      match content_probes m with
      | O => m
      | S n => handle_content_loaded has_content (with_probes n (status_probes m) m)
      end
  | CheckerTimeout => if status_checker m then check_page_status m else m
  | StatusProbe loading =>
      match status_probes m with
      | O => m
      | S n => show_page_status loading (with_probes (content_probes m) n m)
      end
  | Tick =>
      with_controller
        (AutoScrollController.step (scroll_controller m) AutoScrollController.Timeout) m
  | ScrollReport reply =>
      with_controller
        (AutoScrollController.step (scroll_controller m)
           (AutoScrollController.Answer reply)) m
  | Retry =>
      with_controller
        (AutoScrollController.step (scroll_controller m) AutoScrollController.Shot) m
  | Html html =>
      if (passes m <? capture_requests m)%nat then parse_html_directly html m else m
  | NewContent => capture_trigger comm m
  end.

Definition run (evs : list event) (m : app) : app := fold_left step evs m.

(** The events of the controller inside an event of the tab. *)
Definition pacer_events (m : app) (ev : event) : list AutoScrollController.event :=
  match ev with
  | Click => if monitoring m then [AutoScrollController.Stop] else []
  | ContentProbe has_content =>
      match content_probes m with
      | O => []
      | S _ => if AutoScrollController.truthy has_content
               then [AutoScrollController.Start] else []
      end
  | Tick => [AutoScrollController.Timeout]
  | ScrollReport reply => [AutoScrollController.Answer reply]
  | Retry => [AutoScrollController.Shot]
  | _ => []
  end.

Fixpoint pacer_trace (evs : list event) (m : app) : list AutoScrollController.event :=
  match evs with
  | [] => []
  | ev :: evs' => pacer_events m ev ++ pacer_trace evs' (step m ev)
  end.

(** The snapshots the passes of a trace are run on. *)
Fixpoint snapshots (evs : list event) (m : app) : list str :=
  match evs with
  | [] => []
  | ev :: evs' =>
      match ev with
      | Html html => if (passes m <? capture_requests m)%nat then [html] else []
      | _ => []
      end ++ snapshots evs' (step m ev)
  end.

End App.

(** An answer of the content probe that says the page holds a note. *)
Definition finds_content (ev : event) : bool :=
  match ev with
  | ContentProbe has_content => AutoScrollController.truthy has_content
  | _ => false
  end.

(** [n] rounds of a page load and the answer of its probe. *)
Fixpoint load_rounds (has_content : AutoScrollController.jsvalue) (n : nat) : list event :=
  match n with
  | O => []
  | S n' => LoadFinished true :: ContentProbe has_content :: load_rounds has_content n'
  end.

(** Nothing has been started. *)
Definition quiet (m : app) : Prop :=
  scroll_controller m = AutoScrollController.init /\
  status_checker m = false /\
  loading_monitors m = 0%nat /\ direct_captures m = 0%nat /\ passes m = 0%nat /\
  capture m = BrowserTab.init /\ fx m = [].

End Monitor.


(** ** More pages *)

Module FixtureMore.

(** A platform on which [str] refuses an integer of more than 4300 digits
    and [localtime] a time before the epoch. *)
Definition widgets : Widgets :=
  {| fill_row := fun note =>
       if 10 ^ 4300 <=? Z.abs (Note.likes note) then Raise ValueError
       else if Note.timestamp note <? 0 then Raise OverflowError
       else Return () |}.

(** A second record under the id of [note_def]. *)
Definition note_def_again : Note.t :=
  {| Note.id := py "f26c2f43";
     Note.title := py "Second, edited";
     Note.url := py "https://www.xiaohongshu.com/explore/def456?xsec_token=W";
     Note.author := py "bob";
     Note.author_link := py "https://www.xiaohongshu.com/user/profile/u1";
     Note.likes := 36;
     Note.cover := [];
     Note.images := [];
     Note.timestamp := 1700000900 |}.

End FixtureMore.


(** * Properties *)

(** ** Floats *)

Lemma div_rne_exact (q d : Z) : 0 < d -> div_rne (q * d) d = q.
Proof.
  intros Hd. unfold div_rne.
  rewrite Z.div_mul, Z.mod_mul by lia.
  destruct (Z.ltb_spec (2 * 0) d); [done|lia].
Qed.

Lemma ilog2_dyadic (n j : Z) : 0 < n -> 0 <= j -> ilog2 (n * 2 ^ j) (2 ^ j) = Z.log2 n.
Proof.
  intros Hn Hj. unfold ilog2, scaled_le.
  rewrite Z.log2_mul_pow2, Z.log2_pow2 by lia.
  replace (j + Z.log2 n - j) with (Z.log2 n) by lia.
  pose proof (Z.log2_nonneg n) as Hlog.
  pose proof (Z.log2_spec n Hn) as [Hlow _].
  assert (0 < 2 ^ j) by (apply Z.pow_pos_nonneg; lia).
  destruct (Z.leb_spec 0 (Z.log2 n)); [|lia].
  destruct (Z.leb_spec (2 ^ j * 2 ^ Z.log2 n) (n * 2 ^ j)); [done|nia].
Qed.

(** A positive integer below [2^53] is a binary64 value: rounding keeps it. *)
Lemma round_exact (n j : Z) :
  0 < n < 2 ^ 53 -> 0 <= j ->
  round false (n * 2 ^ j) (2 ^ j)
  = Finite (n * 2 ^ (52 - Z.log2 n)) (Z.log2 n - 52).
Proof.
  intros [Hn Hlt] Hj. unfold round.
  assert (Hpj : 0 < 2 ^ j) by (apply Z.pow_pos_nonneg; lia).
  destruct (Z.eqb_spec (n * 2 ^ j) 0) as [Hz|_]; [nia|].
  rewrite ilog2_dyadic by lia.
  pose proof (Z.log2_nonneg n) as Hlog.
  assert (Hlog53 : Z.log2 n < 53) by (apply Z.log2_lt_pow2; lia).
  pose proof (Z.log2_spec n Hn) as [_ Hhigh].
  rewrite Z.max_l by lia.
  set (L := Z.log2 n) in *.
  assert (Hpe : 0 < 2 ^ (52 - L)) by (apply Z.pow_pos_nonneg; lia).
  assert (Hm : (if 0 <=? L - 52
                then div_rne (n * 2 ^ j) (2 ^ j * 2 ^ (L - 52))
                else div_rne (n * 2 ^ j * 2 ^ (- (L - 52))) (2 ^ j))
               = n * 2 ^ (52 - L)).
  { destruct (Z.leb_spec 0 (L - 52)).
    - replace (L - 52) with 0 by lia. replace (52 - L) with 0 by lia.
      rewrite Z.pow_0_r, !Z.mul_1_r. by apply div_rne_exact.
    - replace (- (L - 52)) with (52 - L) by lia.
      replace (n * 2 ^ j * 2 ^ (52 - L)) with (n * 2 ^ (52 - L) * 2 ^ j) by lia.
      by apply div_rne_exact. }
  rewrite Hm.
  assert (Hbound : n * 2 ^ (52 - L) < 2 ^ 53).
  { replace (2 ^ 53) with (2 ^ Z.succ L * 2 ^ (52 - L)).
    - nia.
    - rewrite <- Z.pow_add_r by lia. f_equal. lia. }
  destruct (Z.eqb_spec (n * 2 ^ (52 - L)) (2 ^ 53)); [lia|].
  destruct (Z.ltb_spec 971 (L - 52)); [lia|]. done.
Qed.

Lemma py_int_exact (n : Z) :
  0 < n < 2 ^ 53 ->
  py_int (Finite (n * 2 ^ (52 - Z.log2 n)) (Z.log2 n - 52)) = Return n.
Proof.
  intros [Hn Hlt]. unfold py_int. f_equal.
  pose proof (Z.log2_nonneg n) as Hlog.
  assert (Hlog53 : Z.log2 n < 53) by (apply Z.log2_lt_pow2; lia).
  set (L := Z.log2 n) in *.
  destruct (Z.leb_spec 0 (L - 52)).
  - replace (L - 52) with 0 by lia. replace (52 - L) with 0 by lia.
    rewrite Z.pow_0_r. lia.
  - replace (- (L - 52)) with (52 - L) by lia.
    apply Z.quot_mul.
    assert (0 < 2 ^ (52 - L)) by (apply Z.pow_pos_nonneg; lia). lia.
Qed.

Lemma of_Z_exact (k : Z) :
  0 < k < 2 ^ 53 -> of_Z k = Finite (k * 2 ^ (52 - Z.log2 k)) (Z.log2 k - 52).
Proof.
  intros Hk. unfold of_Z.
  destruct (Z.ltb_spec k 0); [lia|]. rewrite Z.abs_eq by lia.
  rewrite <- (round_exact k 0) by lia.
  by rewrite Z.pow_0_r, Z.mul_1_r.
Qed.

(** The product of two integers is exact as long as it stays below [2^53]. *)
Lemma fmul_exact (n k : Z) :
  0 < n -> 0 < k -> n * k < 2 ^ 53 ->
  py_int (fmul (round false n 1) (of_Z k)) = Return (n * k).
Proof.
  intros Hn Hk Hnk.
  assert (Hn53 : n < 2 ^ 53) by nia.
  assert (Hk53 : k < 2 ^ 53) by nia.
  rewrite of_Z_exact by lia.
  replace (round false n 1) with (round false (n * 2 ^ 0) (2 ^ 0))
    by (by rewrite Z.pow_0_r, Z.mul_1_r).
  rewrite round_exact by lia.
  pose proof (Z.log2_nonneg n) as Hln. pose proof (Z.log2_nonneg k) as Hlk.
  assert (Hln53 : Z.log2 n < 53) by (apply Z.log2_lt_pow2; lia).
  assert (Hlk53 : Z.log2 k < 53) by (apply Z.log2_lt_pow2; lia).
  pose proof (Z.log2_spec n Hn) as [Hnlow _].
  pose proof (Z.log2_spec k Hk) as [Hklow _].
  set (a := Z.log2 n) in *. set (b := Z.log2 k) in *.
  assert (Hpa : 0 < 2 ^ (52 - a)) by (apply Z.pow_pos_nonneg; lia).
  assert (Hpb : 0 < 2 ^ (52 - b)) by (apply Z.pow_pos_nonneg; lia).
  assert (Hab : a + b < 104).
  { destruct (Z.lt_ge_cases (a + b) 104) as [|Hge]; [done|].
    assert (Ha : a = 52) by lia. assert (Hb : b = 52) by lia. subst a b.
    rewrite Ha, Hb in *. nia. }
  unfold fmul.
  set (m := n * 2 ^ (52 - a) * (k * 2 ^ (52 - b))).
  assert (Hm : 0 < m) by (subst m; nia).
  destruct (Z.leb_spec 0 (a - 52 + (b - 52))); [lia|].
  destruct (Z.ltb_spec m 0); [lia|]. rewrite Z.abs_eq by lia.
  replace (- (a - 52 + (b - 52))) with ((52 - a) + (52 - b)) by lia.
  replace m with (n * k * 2 ^ (52 - a + (52 - b)))
    by (subst m; rewrite Z.pow_add_r by lia; lia).
  rewrite round_exact by lia.
  apply py_int_exact. lia.
Qed.

Lemma float_of_int_exact (n : Z) :
  0 <= n < 2 ^ 53 -> py_int (round false n 1) = Return n.
Proof.
  intros [Hn Hlt]. destruct (Z.eq_dec n 0) as [->|]; [done|].
  replace (round false n 1) with (round false (n * 2 ^ 0) (2 ^ 0))
    by (by rewrite Z.pow_0_r, Z.mul_1_r).
  rewrite round_exact by lia. apply py_int_exact. lia.
Qed.

Lemma fmul_zero (k : Z) : 0 < k < 2 ^ 53 -> py_int (fmul (round false 0 1) (of_Z k)) = Return 0.
Proof.
  intros Hk. rewrite of_Z_exact by lia. unfold round at 1. simpl.
  destruct (Z.leb_spec 0 (0 + (Z.log2 k - 52))); done.
Qed.

(** ** Strings *)

Lemma split_without (sep : char) (s : str) : sep ∉ s -> split sep s = [s].
Proof.
  induction s as [|c s IH]; intros Hs; [done|].
  apply not_elem_of_cons in Hs as [Hc Hs]. simpl.
  destruct (N.eqb_spec c sep) as [->|_]; [done|]. by rewrite IH.
Qed.

Lemma split_at_first (sep : char) (p q : str) :
  sep ∉ p -> split sep (p ++ sep :: q) = p :: split sep q.
Proof.
  induction p as [|c p IH]; intros Hp; simpl.
  - by rewrite N.eqb_refl.
  - apply not_elem_of_cons in Hp as [Hc Hp].
    destruct (N.eqb_spec c sep) as [->|_]; [done|]. by rewrite IH.
Qed.

Lemma replace_app (c : char) (new a b : str) :
  replace c new (a ++ b) = replace c new a ++ replace c new b.
Proof.
  induction a as [|x a IH]; [done|]. simpl. by rewrite IH, app_assoc.
Qed.

Lemma replace_absent (c : char) (new s : str) : c ∉ s -> replace c new s = s.
Proof.
  induction s as [|x s IH]; intros Hs; [done|].
  apply not_elem_of_cons in Hs as [Hx Hs]. simpl.
  destruct (N.eqb_spec x c) as [->|_]; [done|]. by rewrite IH.
Qed.

Lemma contains_char_spec (c : char) (s : str) : contains_char c s = true <-> c ∈ s.
Proof.
  unfold contains_char. rewrite existsb_exists. split.
  - intros (x & Hin & ->%N.eqb_eq). by apply list_elem_of_In.
  - intros Hin. exists c. split; [by apply list_elem_of_In|apply N.eqb_refl].
Qed.

Lemma contains_char_absent (c : char) (s : str) : c ∉ s -> contains_char c s = false.
Proof.
  intros Hs. destruct (contains_char c s) eqn:Hc; [|done].
  by apply contains_char_spec in Hc.
Qed.

Lemma lstrip_app_last (s : str) (c : char) :
  isspace c = false -> lstrip (s ++ [c]) = lstrip s ++ [c].
Proof.
  intros Hc. induction s as [|x s IH]; simpl.
  - by rewrite Hc.
  - by destruct (isspace x).
Qed.

Lemma strip_app_last (s : str) (c : char) :
  isspace c = false -> strip (s ++ [c]) = lstrip s ++ [c].
Proof.
  intros Hc. unfold strip, rstrip.
  rewrite lstrip_app_last by done.
  rewrite rev_app_distr. simpl. rewrite Hc. simpl.
  by rewrite rev_involutive.
Qed.

Lemma lstrip_no_space (s : str) : forallb (fun c => negb (isspace c)) s = true -> lstrip s = s.
Proof. destruct s as [|c s]; [done|]. simpl. by destruct (isspace c). Qed.

Lemma strip_no_space (s : str) : forallb (fun c => negb (isspace c)) s = true -> strip s = s.
Proof.
  intros Hs. unfold strip, rstrip. rewrite (lstrip_no_space s Hs).
  rewrite lstrip_no_space; [apply rev_involutive|].
  rewrite forallb_forall in *. intros c Hc. apply Hs. by apply in_rev.
Qed.

(** ** Numerals *)

Lemma numeral_digits (ds : list Z) :
  Forall is_decimal_digit ds -> forallb is_digit (numeral ds) = true.
Proof.
  induction 1 as [|d ds Hd _ IH]; [done|]. simpl. rewrite IH, andb_true_r.
  unfold is_digit, is_decimal_digit in *.
  apply andb_true_iff. split; apply N.leb_le; lia.
Qed.

Lemma digits_forall (P : char -> bool) (s : str) :
  (forall c, is_digit c = true -> P c = true) ->
  forallb is_digit s = true -> forallb P s = true.
Proof.
  intros HP. rewrite !forallb_forall. intros Hs c Hc. apply HP, Hs, Hc.
Qed.

Lemma is_digit_range (c : char) : is_digit c = true -> (48 <= c <= 57)%N.
Proof.
  unfold is_digit. intros [?%N.leb_le ?%N.leb_le]%andb_true_iff. lia.
Qed.

Lemma digits_absent (c : char) (s : str) :
  is_digit c = false -> forallb is_digit s = true -> c ∉ s.
Proof.
  intros Hc Hs Hin. rewrite forallb_forall in Hs.
  apply list_elem_of_In, Hs in Hin. congruence.
Qed.

Lemma drop_underscores_digits (prev : char) (s : str) :
  prev <> 95%N -> forallb is_digit s = true -> drop_underscores prev s = Some s.
Proof.
  revert prev. induction s as [|c s IH]; intros prev Hprev Hs; simpl in *.
  - by destruct (N.eqb_spec prev 95).
  - apply andb_true_iff in Hs as [Hc Hs].
    pose proof (is_digit_range c Hc) as Hrange.
    destruct (N.eqb_spec c 95); [lia|].
    destruct (N.eqb_spec prev 95); [done|]. simpl.
    rewrite IH by done. done.
Qed.

Lemma strip_ascii_digits (s : str) : forallb is_digit s = true -> strip_ascii s = s.
Proof.
  intros Hs. unfold strip_ascii.
  assert (Hl : forall t, forallb is_digit t = true -> lstrip_ascii t = t).
  { intros [|c t] Ht; [done|]. simpl in *.
    apply andb_true_iff in Ht as [Hc%is_digit_range _].
    unfold ascii_space.
    destruct (N.leb_spec 9 c), (N.leb_spec c 13), (N.eqb_spec c 32); simpl; try done; lia. }
  rewrite (Hl s Hs), Hl; [apply rev_involutive|].
  rewrite forallb_forall in *. intros c Hc. apply Hs. by apply in_rev.
Qed.

Lemma span_digits_numeral (ds : list Z) :
  Forall is_decimal_digit ds -> span_digits (numeral ds) = (ds, []).
Proof.
  induction 1 as [|d ds Hd Hds IH]; [done|]. simpl. rewrite IH.
  unfold is_decimal_digit in Hd.
  assert (Hdig : is_digit (Z.to_N (48 + d)) = true).
  { unfold is_digit. apply andb_true_iff. split; apply N.leb_le; lia. }
  rewrite Hdig. f_equal. f_equal. lia.
Qed.

Lemma parse_literal_numeral (ds : list Z) :
  ds <> [] -> Forall is_decimal_digit ds ->
  parse_literal (numeral ds) = Some (round false (digits_value ds) 1).
Proof.
  intros Hne Hds. destruct ds as [|d ds]; [done|].
  pose proof (span_digits_numeral (d :: ds) Hds) as Hspan.
  apply Forall_cons in Hds as [Hd Hds]. unfold is_decimal_digit in Hd.
  assert (Hcases : d = 0 \/ d = 1 \/ d = 2 \/ d = 3 \/ d = 4 \/ d = 5 \/ d = 6
                   \/ d = 7 \/ d = 8 \/ d = 9) by lia.
  unfold parse_literal.
  assert (Hsign : parse_sign (numeral (d :: ds)) = (false, numeral (d :: ds))).
  { destruct Hcases as [->|[->|[->|[->|[->|[->|[->|[->|[->| ->]]]]]]]]]; reflexivity. }
  rewrite Hsign.
  assert (Hword : forall w : str, hd 0%N w = 105%N \/ hd 0%N w = 110%N ->
                    bool_decide (map lower (numeral (d :: ds)) = w) = false).
  { intros w Hw. apply bool_decide_eq_false. intros <-.
    destruct Hcases as [->|[->|[->|[->|[->|[->|[->|[->|[->| ->]]]]]]]]];
      destruct Hw as [Hw|Hw]; vm_compute in Hw; discriminate. }
  rewrite !Hword by (vm_compute; auto). simpl orb. cbv iota.
  rewrite Hspan. simpl. rewrite app_nil_r.
  unfold decimal. simpl. by rewrite Z.mul_1_r.
Qed.

Section Floats.
Context {db : UnicodeDB}.

Lemma py_float_numeral (ds : list Z) :
  ds <> [] -> Forall is_decimal_digit ds ->
  py_float (numeral ds) = Return (round false (digits_value ds) 1).
Proof.
  intros Hne Hds. pose proof (numeral_digits ds Hds) as Hdig.
  unfold py_float, transform.
  rewrite (digits_forall (fun c => (c <? 128)%N)); [|intros c Hc%is_digit_range; apply N.ltb_lt; lia|done].
  rewrite drop_underscores_digits, strip_ascii_digits by done.
  by rewrite parse_literal_numeral.
Qed.

End Floats.

Lemma digits_value_nonneg_from (ds : list Z) (acc : Z) :
  Forall is_decimal_digit ds -> 0 <= acc -> 0 <= fold_left (fun a d => 10 * a + d) ds acc.
Proof.
  intros Hds. revert acc. induction Hds as [|d ds Hd _ IH]; intros acc Hacc; [done|].
  simpl. apply IH. unfold is_decimal_digit in Hd. lia.
Qed.

Lemma digits_value_nonneg (ds : list Z) : Forall is_decimal_digit ds -> 0 <= digits_value ds.
Proof. intros Hds. by apply digits_value_nonneg_from. Qed.

(** ** The like-count normalizer *)

Section Normalizer.
Context {db : UnicodeDB}.

(** The text [float] is called on decides the result. *)
Lemma parse_like_count_unfold (text : str) :
  _parse_like_count text =
    or_zero
      (x ← py_float (float_operand text);
       py_int (if contains_char wan (strip (replace plus_sign [] text))
               then fmul x (of_Z 10000)
               else if contains_char qian (strip (replace plus_sign [] text))
                    then fmul x (of_Z 1000)
                    else x)).
Proof.
  unfold _parse_like_count, float_operand.
  destruct (contains_char wan _); [by destruct (py_float _)|].
  destruct (contains_char qian _); by destruct (py_float _).
Qed.

Lemma suffixed_text (num : str) (suffix : char) :
  isspace suffix = false -> suffix <> plus_sign ->
  plus_sign ∉ num -> lstrip num = num ->
  strip (replace plus_sign [] (num ++ [suffix])) = num ++ [suffix].
Proof.
  intros Hspace Hplus Hnum Hstrip.
  rewrite replace_app, (replace_absent _ _ num Hnum). simpl.
  destruct (N.eqb_spec suffix plus_sign); [done|]. simpl.
  by rewrite strip_app_last, Hstrip.
Qed.

Lemma like_count_suffixed (num : str) (x : pyfloat) :
  plus_sign ∉ num -> wan ∉ num -> lstrip num = num ->
  py_float num = Return x ->
  _parse_like_count (num ++ [wan]) = or_zero (py_int (fmul x (of_Z 10000)))
  /\ (qian ∉ num ->
      _parse_like_count (num ++ [qian]) = or_zero (py_int (fmul x (of_Z 1000)))).
Proof.
  intros Hplus Hwan Hstrip Hfloat. split; [|intros Hqian].
  - rewrite parse_like_count_unfold. unfold float_operand.
    rewrite suffixed_text by done.
    assert (Hin : contains_char wan (num ++ [wan]) = true)
      by (apply contains_char_spec; set_solver).
    rewrite Hin, replace_app, (replace_absent _ _ num Hwan). simpl.
    rewrite app_nil_r, Hfloat. done.
  - rewrite parse_like_count_unfold. unfold float_operand.
    rewrite suffixed_text by done.
    assert (Hout : contains_char wan (num ++ [qian]) = false).
    { apply contains_char_absent. intros [?|Hq%list_elem_of_singleton]%elem_of_app; done. }
    assert (Hin : contains_char qian (num ++ [qian]) = true)
      by (apply contains_char_spec; set_solver).
    rewrite Hout, Hin, replace_app, (replace_absent _ _ num Hqian). simpl.
    rewrite app_nil_r, Hfloat. done.
Qed.

Lemma numeral_clean (ds : list Z) (c : char) :
  Forall is_decimal_digit ds -> is_digit c = false -> c ∉ numeral ds.
Proof. intros Hds Hc. apply digits_absent; [done|by apply numeral_digits]. Qed.

Lemma numeral_no_space (ds : list Z) :
  Forall is_decimal_digit ds ->
  forallb (fun c => negb (isspace c)) (numeral ds) = true.
Proof.
  intros Hds. apply digits_forall; [|by apply numeral_digits].
  intros c Hc%is_digit_range.
  assert (Hcases : (c = 48 \/ c = 49 \/ c = 50 \/ c = 51 \/ c = 52 \/ c = 53
                    \/ c = 54 \/ c = 55 \/ c = 56 \/ c = 57)%N) by lia.
  destruct Hcases as [->|[->|[->|[->|[->|[->|[->|[->|[->| ->]]]]]]]]]; reflexivity.
Qed.

Lemma like_count_numeral (ds : list Z) :
  ds <> [] -> Forall is_decimal_digit ds ->
  let n := digits_value ds in
  (n < 2 ^ 53 -> _parse_like_count (numeral ds) = Return n) /\
  (n * 10000 < 2 ^ 53 -> _parse_like_count (numeral ds ++ [wan]) = Return (n * 10000)) /\
  (n * 1000 < 2 ^ 53 -> _parse_like_count (numeral ds ++ [qian]) = Return (n * 1000)).
Proof.
  intros Hne Hds n.
  pose proof (digits_value_nonneg ds Hds) as Hn. fold n in Hn.
  pose proof (py_float_numeral ds Hne Hds) as Hfloat. fold n in Hfloat.
  assert (Hplus : plus_sign ∉ numeral ds) by (by apply numeral_clean).
  assert (Hwan : wan ∉ numeral ds) by (by apply numeral_clean).
  assert (Hqian : qian ∉ numeral ds) by (by apply numeral_clean).
  pose proof (numeral_no_space ds Hds) as Hspace.
  destruct (like_count_suffixed (numeral ds) _ Hplus Hwan
              (lstrip_no_space _ Hspace) Hfloat) as [Hw Hq].
  specialize (Hq Hqian).
  assert (Hmul : forall k, 0 < k < 2 ^ 53 -> n * k < 2 ^ 53 ->
                   py_int (fmul (round false n 1) (of_Z k)) = Return (n * k)).
  { intros k Hk Hnk. destruct (Z.eq_dec n 0) as [->|].
    - by apply fmul_zero.
    - apply fmul_exact; lia. }
  split; [|split].
  - intros Hlt. rewrite parse_like_count_unfold. unfold float_operand.
    rewrite replace_absent, strip_no_space by done.
    rewrite !contains_char_absent by done.
    rewrite Hfloat. simpl. by rewrite float_of_int_exact.
  - intros Hlt. rewrite Hw, Hmul; [done|lia|done].
  - intros Hlt. rewrite Hq, Hmul; [done|lia|done].
Qed.

(** C3, amended: the '+' marks are dropped; a text whose number [float]
    refuses maps to 0; a text [<number>万] maps to the binary64 product
    [float(number) * 10000] cut toward zero by [int], not rounded, and
    [<number>千] likewise with 1000; a numeral of decimal digits below
    [2^53] maps to itself, and with a suffix to its exact multiple. *)
Theorem like_count_is_truncated (text num : str) (x : pyfloat) (ds : list Z) :
  _parse_like_count (text ++ [plus_sign]) = _parse_like_count text /\
  (py_float (float_operand text) = Raise ValueError -> _parse_like_count text = Return 0) /\
  (plus_sign ∉ num -> wan ∉ num -> qian ∉ num -> lstrip num = num ->
   py_float num = Return x ->
   _parse_like_count (num ++ [wan]) = or_zero (py_int (fmul x (of_Z 10000))) /\
   _parse_like_count (num ++ [qian]) = or_zero (py_int (fmul x (of_Z 1000)))) /\
  (ds <> [] -> Forall is_decimal_digit ds ->
   (digits_value ds < 2 ^ 53 ->
    _parse_like_count (numeral ds) = Return (digits_value ds)) /\
   (digits_value ds * 10000 < 2 ^ 53 ->
    _parse_like_count (numeral ds ++ [wan]) = Return (digits_value ds * 10000)) /\
   (digits_value ds * 1000 < 2 ^ 53 ->
    _parse_like_count (numeral ds ++ [qian]) = Return (digits_value ds * 1000))).
Proof.
  split; [|split; [|split]].
  - unfold _parse_like_count. rewrite replace_app. simpl. by rewrite app_nil_r.
  - intros Hfloat. rewrite parse_like_count_unfold, Hfloat. done.
  - intros Hplus Hwan Hqian Hstrip Hfloat.
    destruct (like_count_suffixed num x Hplus Hwan Hstrip Hfloat) as [Hw Hq].
    split; [exact Hw|exact (Hq Hqian)].
  - intros Hne Hds. exact (like_count_numeral ds Hne Hds).
Qed.

Lemma like_count_minus_5 : _parse_like_count (py "-5") = Return (-5).
Proof. vm_compute. reflexivity. Qed.

Lemma like_count_1_13_wan : _parse_like_count (py "1.13万") = Return 11299.
Proof. vm_compute. reflexivity. Qed.

Lemma like_count_1_2_wan_plus : _parse_like_count (py "1.2万+") = Return 12000.
Proof. vm_compute. reflexivity. Qed.

End Normalizer.

(** C3, as stated, fails: "1.13万" is normalized to 11299, while
    [float("1.13") * 10000] rounds to 11300; the product is
    11299.999999999998 and [int] cuts it. *)
Lemma normalizer_truncates : ~ exists db : UnicodeDB, @normalizer_rounds db.
Proof.
  intros [db Hclaim].
  assert (Hfalse : @_parse_like_count db (py "1.13" ++ [wan]) = Return 11300).
  { apply (Hclaim (py "1.13") (Finite 5089067578928660 (-52)) 11300);
      vm_compute; reflexivity. }
  vm_compute in Hfalse. discriminate.
Qed.

Ltac not_in_text :=
  vm_compute; intros Hin;
  repeat (apply elem_of_cons in Hin as [Hin|Hin]; [discriminate|]);
  by apply elem_of_nil in Hin.

(** The texts "12.5e1千" and "35万". *)
Lemma like_count_is_truncated_witness :
  @_parse_like_count Fixture.ascii_digits (py "12.5e1千") = Return 125000 /\
  @_parse_like_count Fixture.ascii_digits (py "35万") = Return 350000.
Proof.
  pose proof (@like_count_is_truncated Fixture.ascii_digits (py "x")
                (py "12.5e1") (Finite 8796093022208000 (-46)) [3; 5])
    as (_ & _ & Hnum & Hds).
  split.
  - destruct Hnum as [_ Hq];
      [not_in_text | not_in_text | not_in_text | reflexivity
       | vm_compute; reflexivity |].
    change (py "12.5e1千") with (py "12.5e1" ++ [qian]).
    rewrite Hq. vm_compute. reflexivity.
  - destruct Hds as (_ & Hw & _);
      [done | repeat constructor; unfold is_decimal_digit; lia |].
    apply Hw. vm_compute. reflexivity.
Defined.

(** ** The scroll pacer *)

Section PacerFacts.
Import AutoScrollController.

Lemma run_app (a b : list event) (w : world) : run (a ++ b) w = run b (run a w).
Proof. unfold run. apply fold_left_app. Qed.

Lemma scroll_steps_ctl (slots : list slot) (w : world) :
  ctl (fold_left (fun w s => call_slot s w) slots w) = ctl w.
Proof.
  revert w. induction slots as [|s slots IH]; intros w; simpl; [done|].
  rewrite IH. by destruct s.
Qed.

Lemma scroll_steps_in_flight (slots : list slot) (w : world) :
  in_flight (fold_left (fun w s => call_slot s w) slots w)
  = (in_flight w + length slots)%nat.
Proof.
  revert w. induction slots as [|s slots IH]; intros w; simpl; [lia|].
  rewrite IH. destruct s; simpl. lia.
Qed.

Lemma scroll_steps_calls (slots : list slot) (w : world) :
  callback_calls (fold_left (fun w s => call_slot s w) slots w) = callback_calls w.
Proof.
  revert w. induction slots as [|s slots IH]; intros w; simpl; [done|].
  rewrite IH. by destruct s.
Qed.

Lemma handle_scroll_ctl (r : report) (w : world) :
  ctl (fst (_handle_scroll r w)) = ctl w.
Proof.
  unfold _handle_scroll. destruct r as [fields|]; [|done].
  case_bool_decide; [done|]. by destruct (truthy _).
Qed.

Lemma handle_scroll_calls (r : report) (w : world) :
  callback_calls (fst (_handle_scroll r w)) = S (callback_calls w).
Proof.
  unfold _handle_scroll. destruct r as [fields|]; [|done].
  case_bool_decide; [done|]. by destruct (truthy _).
Qed.

Lemma handle_scroll_in_flight (r : report) (w : world) :
  in_flight (fst (_handle_scroll r w)) = in_flight w.
Proof.
  unfold _handle_scroll. destruct r as [fields|]; [|done].
  case_bool_decide; [done|]. by destruct (truthy _).
Qed.

Lemma handle_scroll_shots (r : report) (w : world) :
  single_shots (fst (_handle_scroll r w))
  = (single_shots w + if reports_loading r then 1 else 0)%nat.
Proof.
  unfold _handle_scroll, reports_loading. destruct r as [fields|]; simpl; [|lia].
  case_bool_decide as Hempty.
  - subst fields. rewrite lookup_empty. simpl. lia.
  - destruct (truthy _); simpl; lia.
Qed.

(** Only [start] and [stop] touch the controller itself. *)
Lemma step_ctl (w : world) (ev : event) :
  ctl (step w ev) = match ev with
                    | Start => ctl (start w)
                    | Stop => ctl (stop w)
                    | _ => ctl w
                    end.
Proof.
  destruct ev; simpl; try done.
  - destruct (running _); [apply scroll_steps_ctl|done].
  - destruct (in_flight w); [done|]. by rewrite handle_scroll_ctl.
  - by destruct (single_shots w).
Qed.

Lemma step_timer_follows_flag (w : world) (ev : event) :
  timer_follows_flag w -> timer_follows_flag (step w ev).
Proof.
  unfold timer_follows_flag. intros Hw. rewrite step_ctl.
  destruct ev; try done; unfold start, stop;
    destruct (active (ctl w)) eqn:Ha; simpl; congruence.
Qed.

Lemma run_timer_follows_flag (evs : list event) (w : world) :
  timer_follows_flag w -> timer_follows_flag (run evs w).
Proof.
  revert w. induction evs as [|ev evs IH]; intros w Hw; [done|].
  simpl. apply IH. by apply step_timer_follows_flag.
Qed.

Lemma run_connections (evs : list event) (w : world) :
  length (timeout (timer (ctl (run evs w))))
  = (length (timeout (timer (ctl w))) + activations_from (active (ctl w)) evs)%nat.
Proof.
  revert w. induction evs as [|ev evs IH]; intros w; simpl; [lia|].
  change (fold_left step evs (step w ev)) with (run evs (step w ev)).
  rewrite IH, step_ctl.
  destruct ev; simpl; try lia; unfold start, stop;
    destruct (active (ctl w)) eqn:Ha; simpl; rewrite ?Ha, ?length_app; simpl; lia.
Qed.

Lemma answers_calls (replies : list report) (w : world) :
  (length replies <= in_flight w)%nat ->
  callback_calls (run (map Answer replies) w) = (callback_calls w + length replies)%nat.
Proof.
  revert w. induction replies as [|r replies IH]; intros w Hle; simpl in *; [lia|].
  destruct (in_flight w) as [|n] eqn:Hn; [lia|].
  change (fold_left step (map Answer replies) ?x) with (run (map Answer replies) x).
  rewrite IH.
  - rewrite handle_scroll_calls. simpl. lia.
  - rewrite handle_scroll_in_flight. simpl. lia.
Qed.


Lemma activations_stop_start (b : bool) (evs : list event) :
  activations_from b (evs ++ [Stop; Start]) = S (activations_from b evs).
Proof.
  revert b. induction evs as [|ev evs IH]; intros b; [done|].
  destruct ev; simpl; rewrite IH; lia.
Qed.

Lemma restarted_activations (k : nat) : activations (restarted k) = k.
Proof.
  unfold activations. induction k as [|k IH]; [done|].
  destruct k as [|k]; [done|].
  change (restarted (S (S k))) with (restarted (S k) ++ [Stop; Start]).
  by rewrite activations_stop_start, IH.
Qed.

Lemma start_active (w : world) : active (ctl (start w)) = true.
Proof. unfold start. destruct (active (ctl w)) eqn:Ha; simpl; by rewrite ?Ha. Qed.

Lemma restarted_active (k : nat) : active (ctl (run (restarted (S k)) init)) = true.
Proof.
  destruct k as [|k]; [done|].
  change (restarted (S (S k))) with (restarted (S k) ++ [Stop; Start]).
  rewrite run_app. simpl. apply start_active.
Qed.

(** C2, as stated, fails: a report that arrives after [stop] still calls
    the capture callback and, when it says loading, still books a retry.
    Trace: start, one tick, stop, then the report
    [{height: 1000, item_count: 20, loading: true}]. *)
Lemma late_report_is_handled : ~ late_report_is_noop.
Proof.
  intros Hclaim.
  destruct (Hclaim [Start; Timeout; Stop] (page_report 1000 20 true) eq_refl)
    as [Hcalls _].
  vm_compute in Hcalls. discriminate.
Qed.

Lemma stop_idle (w : world) : active (ctl w) = false -> stop w = w.
Proof. intros Ha. unfold stop. by rewrite Ha. Qed.

Lemma stop_inactive (w : world) : active (ctl (stop w)) = false.
Proof. unfold stop. destruct (active (ctl w)) eqn:Ha; simpl; by rewrite ?Ha. Qed.

(** C2, amended: [stop] stops the timer, so that the periodic tick does
    nothing any more, and stopping an idle pacer changes nothing; but a
    report of a script issued before [stop] is handled as ever: it calls the
    capture callback once and, when it says loading, books one retry. *)
Theorem stop_disarms_the_timer_only (evs : list event) (r : report) (w0 : world) :
  let w := stop (_scroll_step (run evs init)) in
  active (ctl w) = false /\
  running (timer (ctl w)) = false /\
  step w Timeout = w /\
  stop w = w /\
  stop (stop w0) = stop w0 /\
  callback_calls (step w (Answer r)) = S (callback_calls w) /\
  single_shots (step w (Answer r))
  = (single_shots w + if reports_loading r then 1 else 0)%nat.
Proof.
  intros w.
  assert (Hflag : timer_follows_flag w).
  { change w with (step (_scroll_step (run evs init)) Stop).
    apply step_timer_follows_flag.
    unfold timer_follows_flag. simpl.
    by apply (run_timer_follows_flag evs init). }
  assert (Hidle : active (ctl w) = false) by apply stop_inactive.
  assert (Hoff : running (timer (ctl w)) = false) by (rewrite Hflag; exact Hidle).
  split; [exact Hidle|]. split; [exact Hoff|].
  split; [simpl; by rewrite Hoff|].
  split; [by apply stop_idle|].
  split; [apply stop_idle, stop_inactive|].
  assert (Hfl : in_flight w = S (in_flight (run evs init))).
  { subst w. unfold stop. destruct (active (ctl (_scroll_step (run evs init)))); reflexivity. }
  simpl. rewrite Hfl.
  rewrite handle_scroll_calls, handle_scroll_shots. done.
Qed.

(** C9: [start] on an active pacer does nothing, and [stop] leaves the
    connections of the timer alone; so after a trace with [k] transitions
    from idle to active the [timeout] signal has [k] connections, a tick of
    the running timer hands [k] scripts to the page, and their [k] reports
    call the capture callback [k] times.  The trace start, stop, start, ...
    with [k + 1] starts has [k + 1] such transitions and ends active. *)
Theorem restart_multiplies_the_tick (evs : list event) (replies : list report) (k : nat) :
  let w := run evs init in
  active (ctl w) = true ->
  length replies = activations evs ->
  start w = w /\
  timeout (timer (ctl (stop w))) = timeout (timer (ctl w)) /\
  length (timeout (timer (ctl w))) = activations evs /\
  in_flight (step w Timeout) = (in_flight w + activations evs)%nat /\
  callback_calls (run (map Answer replies) (step w Timeout))
  = (callback_calls w + activations evs)%nat /\
  activations (restarted (S k)) = S k /\
  active (ctl (run (restarted (S k)) init)) = true.
Proof.
  intros w Hactive Hreplies.
  assert (Hconn : length (timeout (timer (ctl w))) = activations evs).
  { subst w. by rewrite run_connections. }
  assert (Hrun : running (timer (ctl w)) = true).
  { rewrite <- Hactive. by apply (run_timer_follows_flag evs init). }
  assert (Hfl : in_flight (step w Timeout) = (in_flight w + activations evs)%nat).
  { simpl. by rewrite Hrun, scroll_steps_in_flight, Hconn. }
  split; [unfold start; by rewrite Hactive|].
  split; [unfold stop; by rewrite Hactive|].
  split; [exact Hconn|]. split; [exact Hfl|].
  split; [|split; [apply restarted_activations|apply restarted_active]].
  rewrite answers_calls by lia.
  simpl. rewrite Hrun, scroll_steps_calls. lia.
Qed.

(** Start, stop, start, then one tick and its two reports. *)
Lemma restart_multiplies_the_tick_witness :
  callback_calls (run (map Answer [page_report 900 12 false; NotADict])
                      (step (run (restarted 2) init) Timeout)) = 2%nat.
Proof.
  pose proof (restart_multiplies_the_tick (restarted 2)
                [page_report 900 12 false; NotADict] 2 eq_refl eq_refl) as H.
  destruct H as (_ & _ & _ & _ & Hcalls & _). exact Hcalls.
Defined.

End PacerFacts.

(** ** The capture pass *)

Lemma bind_Return {A B} (r : result A) (k : A -> result B) (b : B) :
  (r ≫= k) = Return b -> exists a, r = Return a /\ k a = Return b.
Proof. destruct r as [a|e]; [eauto|discriminate]. Qed.

Section PassFacts.
Import BrowserTab.
Context {db : UnicodeDB} {bs : Bs4} {env : Env}.

(** C6: the short id only depends on what precedes the first '?': two
    links with the same path and different query parameters get the same
    id, and so does the link without a query. *)
Theorem note_id_ignores_the_query (path query1 query2 : str) :
  question_mark ∉ path ->
  note_id_of (path ++ question_mark :: query1) = note_id_of (path ++ question_mark :: query2)
  /\ note_id_of (path ++ question_mark :: query1) = note_id_of path.
Proof.
  intros Hpath. unfold note_id_of.
  rewrite (split_at_first _ path query1 Hpath), (split_at_first _ path query2 Hpath),
    (split_without _ path Hpath).
  done.
Qed.


Lemma extract_note_info_id (item : Tag) (b note_id full_url : str) (now : Z) (n : Note.t) :
  _extract_note_info item b note_id full_url now = Return n -> Note.id n = note_id.
Proof.
  unfold _extract_note_info. intros Hn.
  repeat (apply bind_Return in Hn as (? & _ & Hn)).
  by inversion Hn.
Qed.

(** What it takes for a fragment to yield a note. *)
Lemma note_of_item_Some (st : tab) (item : Tag) (n : Note.t) :
  note_of_item st item = Return (Some n) ->
  (Note.id n ∉ collected_notes st) /\
  forall st', note_of_item st' item =
    (if bool_decide (Note.id n ∈ collected_notes st') then Return None
     else n' ← _extract_note_info item base_url (Note.id n) (Note.url n)
                                   (time (clock_reads st'));
          Return (Some n')).
Proof.
  unfold note_of_item. intros Hn.
  destruct (contains _ _ || contains _ _); [discriminate|].
  destruct (select_one item sel_note_link) as [note_link|]; [|discriminate].
  apply bind_Return in Hn as (href & Hhref & Hn).
  apply bind_Return in Hn as (full_url & Hurl & Hn).
  apply bind_Return in Hn as (note_id & Hid' & Hn).
  rewrite Hhref. simpl. rewrite Hurl. simpl. rewrite Hid'. simpl.
  case_bool_decide as Hin; [discriminate|].
  apply bind_Return in Hn as (n' & Hextract & Hn). inversion Hn; subst n'.
  pose proof (extract_note_info_id _ _ _ _ _ _ Hextract) as Hid.
  assert (Hlink : Note.url n = full_url).
  { unfold _extract_note_info in Hextract.
    repeat (apply bind_Return in Hextract as (? & _ & Hextract)).
    by inversion Hextract. }
  rewrite Hid, Hlink. done.
Qed.

Lemma collect_one (st : tab) (item : Tag) :
  collect [item] st =
    (match note_of_item st item with
     | Return (Some n) =>
         ({| collected_notes := collected_notes st ∪ {[ Note.id n ]};
             clock_reads := S (clock_reads st) |}, [n], [])
     | Return None => (st, [], [])
     | Raise e => (st, [], [log_error e])
     end).
Proof. simpl. by destruct (note_of_item st item) as [[n|]|e]. Qed.

(** C7, amended: whatever the fragment, feeding it a second time yields
    nothing; and a fragment from which the extractor produces a note (it is
    visible, has the link, its id is new and its fields can be read) yields
    that one note the first time, its id being registered. *)
Theorem second_feed_yields_nothing (st : tab) (item : Tag) :
  let '(st1, notes1, _) := collect [item] st in
  snd (fst (collect [item] st1)) = [] /\
  forall note_data : Note.t,
    note_of_item st item = Return (Some note_data) ->
    notes1 = [note_data] /\
    (Note.id note_data ∉ collected_notes st) /\
    Note.id note_data ∈ collected_notes st1.
Proof.
  rewrite collect_one.
  destruct (note_of_item st item) as [[n|]|e] eqn:Hfirst.
  - apply note_of_item_Some in Hfirst as [Hnew Hagain].
    split.
    + rewrite collect_one, Hagain. simpl.
      rewrite bool_decide_true by set_solver. done.
    + intros n' [= <-]. split; [done|]. split; [done|]. simpl. set_solver.
  - split; [|discriminate]. by rewrite collect_one, Hfirst.
  - split; [|discriminate]. by rewrite collect_one, Hfirst.
Qed.

(** The loop only logs. *)
Lemma collect_emits_nothing (items : list Tag) (st : tab) :
  emitted (snd (collect items st)) = [].
Proof.
  revert st. induction items as [|item items IH]; intros st; [done|].
  simpl. destruct (note_of_item st item) as [[n|]|e].
  - specialize (IH {| collected_notes := collected_notes st ∪ {[ Note.id n ]};
                      clock_reads := S (clock_reads st) |}).
    by destruct (collect items _) as [[st2 notes] fx].
  - apply IH.
  - specialize (IH st). by destruct (collect items st) as [[st2 notes] fx].
Qed.

(** The index after the loop: the index before and the ids of the batch. *)
Lemma collect_index (items : list Tag) (st : tab) :
  collected_notes (fst (fst (collect items st)))
  = collected_notes st ∪ list_to_set (Note.id <$> snd (fst (collect items st))).
Proof.
  revert st. induction items as [|item items IH]; intros st; simpl.
  - by rewrite (right_id_L ∅ (∪)).
  - destruct (note_of_item st item) as [[n|]|e].
    + specialize (IH {| collected_notes := collected_notes st ∪ {[ Note.id n ]};
                        clock_reads := S (clock_reads st) |}).
      destruct (collect items _) as [[st2 notes] fx]. simpl in *.
      by rewrite IH, (assoc_L (∪)).
    + apply IH.
    + specialize (IH st). by destruct (collect items st) as [[st2 notes] fx].
Qed.

(** The notes of the loop are new to the index it started from. *)
Lemma collect_fresh (items : list Tag) (st : tab) (n : Note.t) :
  n ∈ snd (fst (collect items st)) -> Note.id n ∉ collected_notes st.
Proof.
  revert st. induction items as [|item items IH]; intros st; simpl.
  - by intros ?%elem_of_nil.
  - destruct (note_of_item st item) as [[n0|]|e] eqn:Hitem.
    + specialize (IH {| collected_notes := collected_notes st ∪ {[ Note.id n0 ]};
                        clock_reads := S (clock_reads st) |}).
      destruct (collect items _) as [[st2 notes] fx]. simpl in *.
      intros [->|Hn]%elem_of_cons.
      * by apply note_of_item_Some in Hitem as [? _].
      * apply IH in Hn. set_solver.
    + apply IH.
    + specialize (IH st). by destruct (collect items st) as [[st2 notes] fx].
Qed.

Lemma duplicate_is_skipped (st : tab) (item : Tag) :
  is_duplicate st item -> note_of_item st item = Return None.
Proof.
  intros (note_link & href & full_url & note_id & Hlink & Hhref & Hurl & Hid & Hin).
  unfold note_of_item. destruct (contains _ _ || contains _ _); [done|].
  rewrite Hlink, Hhref. simpl. rewrite Hurl. simpl. rewrite Hid. simpl.
  by rewrite bool_decide_true.
Qed.

Lemma collect_duplicates (items : list Tag) (st : tab) :
  (forall item, item ∈ items -> is_duplicate st item) ->
  collect items st = (st, [], []).
Proof.
  induction items as [|item items IH]; intros Hdup; [done|].
  simpl. rewrite duplicate_is_skipped by (apply Hdup; left).
  apply IH. intros item' Hin. apply Hdup. by right.
Qed.

(** What a pass emits and what it adds to the index, in terms of its batch. *)
Lemma parse_html_batch (st : tab) (html : str) :
  (batch st html = [] /\ emitted (snd (fst (parse_html st html))) = []
   \/ batch st html <> [] /\ emitted (snd (fst (parse_html st html))) = [batch st html]) /\
  collected_notes (fst (fst (parse_html st html)))
  = collected_notes st ∪ list_to_set (Note.id <$> batch st html).
Proof.
  unfold parse_html, batch.
  destruct (BeautifulSoup html) as [soup|e]; simpl.
  - pose proof (collect_emits_nothing (select soup sel_note_item) st) as Hlog.
    pose proof (collect_index (select soup sel_note_item) st) as Hidx.
    destruct (collect (select soup sel_note_item) st) as [[st' notes] logged].
    simpl in *. unfold emitted in *. rewrite omap_app, Hlog. simpl.
    split; [|exact Hidx]. destruct notes; [left|right]; done.
  - split; [left; done|]. by rewrite (right_id_L ∅ (∪)).
Qed.

Lemma parse_html_duplicates (st : tab) (html : str) (soup : Tag) :
  BeautifulSoup html = Return soup ->
  (forall item, item ∈ select soup sel_note_item -> is_duplicate st item) ->
  parse_html st html = (st, [], Return ()).
Proof.
  intros Hsoup Hall. unfold parse_html.
  by rewrite Hsoup, (collect_duplicates _ _ Hall).
Qed.

(** C8: a pass hands the sink one event holding the whole batch when the
    batch is not empty, and no event when it is empty; the ids the pass
    adds to the index are those of the batch; a pass in which every
    fragment is a duplicate emits nothing and leaves the index as it is. *)
Theorem batch_is_emitted_once (st : tab) (html : str) :
  let '(st', fx, _) := parse_html st html in
  (batch st html = [] /\ emitted fx = []
   \/ batch st html <> [] /\ emitted fx = [batch st html]) /\
  collected_notes st' = collected_notes st ∪ list_to_set (Note.id <$> batch st html) /\
  forall soup : Tag,
    BeautifulSoup html = Return soup ->
    (forall item, item ∈ select soup sel_note_item -> is_duplicate st item) ->
    emitted fx = [] /\ st' = st.
Proof.
  pose proof (parse_html_batch st html) as [Hemit Hidx].
  pose proof (parse_html_duplicates st html) as Hdup.
  destruct (parse_html st html) as [[st' fx] r]. simpl in *.
  split; [exact Hemit|]. split; [exact Hidx|].
  intros soup Hsoup Hall. specialize (Hdup soup Hsoup Hall).
  by injection Hdup as -> -> _.
Qed.

Lemma run_passes_cons (html : str) (htmls : list str) (st : tab) :
  run_passes (html :: htmls) st =
    (fst (run_passes htmls (fst (fst (parse_html st html)))),
     snd (fst (parse_html st html)) ++ snd (run_passes htmls (fst (fst (parse_html st html))))).
Proof.
  simpl. destruct (parse_html st html) as [[st1 fx1] r].
  simpl. by destruct (run_passes htmls st1).
Qed.

(** One pass: the index grows, and what is emitted is new to it. *)
Lemma parse_html_index (st : tab) (html : str) :
  collected_notes st ⊆ collected_notes (fst (fst (parse_html st html))) /\
  forall notes n, notes ∈ emitted (snd (fst (parse_html st html))) ->
                  n ∈ notes -> Note.id n ∉ collected_notes st.
Proof.
  pose proof (parse_html_batch st html) as [Hemit Hidx].
  pose proof (fun n => collect_fresh (match BeautifulSoup html with
                                      | Return soup => select soup sel_note_item
                                      | Raise _ => []
                                      end) st n) as Hfresh.
  destruct (parse_html st html) as [[st' fx] r]. simpl in *.
  split; [rewrite Hidx; apply union_subseteq_l|].
  intros notes n Hnotes Hn.
  destruct Hemit as [[_ Hfx]|[_ Hfx]]; rewrite Hfx in Hnotes.
  - by apply elem_of_nil in Hnotes.
  - apply list_elem_of_singleton in Hnotes as ->. apply Hfresh.
    unfold batch in Hn. by destruct (BeautifulSoup html).
Qed.

(** C10: no pass removes an id: whatever passes are run, the index after
    them contains the index before them, and a post whose id is in the index
    is in no batch that is emitted from then on. *)
Theorem dedup_index_only_grows (st : tab) (htmls : list str) (note_id : str) :
  collected_notes st ⊆ collected_notes (fst (run_passes htmls st)) /\
  (note_id ∈ collected_notes st ->
   forall notes, notes ∈ emitted (snd (run_passes htmls st)) ->
                 note_id ∉ Note.id <$> notes).
Proof.
  revert st. induction htmls as [|html htmls IH]; intros st.
  - simpl. split; [done|]. by intros _ notes ?%elem_of_nil.
  - rewrite run_passes_cons. simpl.
    destruct (parse_html_index st html) as [Hgrow Hnew].
    destruct (IH (fst (fst (parse_html st html)))) as [Hgrow' Hnew'].
    split; [by etrans|].
    intros Hin notes Hnotes. unfold emitted in Hnotes.
    rewrite omap_app in Hnotes. apply elem_of_app in Hnotes as [Hnotes|Hnotes].
    + intros (n & Hid & Hn)%list_elem_of_fmap.
      apply (Hnew notes n Hnotes Hn). by rewrite <- Hid.
    + apply Hnew'; [by apply Hgrow|done].
Qed.

(** C1: when the parse of the page raises, the handler of [parse_html]
    looks up [handle_html_error], which [BrowserTab] does not have: the
    pass ends in an [AttributeError] instead of returning. *)
Theorem parse_failure_escapes (st : tab) (html : str) (e : exc) :
  BeautifulSoup html = Raise e ->
  parse_html st html = (st, [], Raise AttributeError).
Proof. intros Hparse. unfold parse_html. by rewrite Hparse. Qed.

End PassFacts.

Section OnThePages.
Import BrowserTab MiniSoup Fixture.
#[local] Existing Instances ascii_digits soup env.

(** Two links to the post abc123. *)
Lemma note_id_ignores_the_query_witness :
  note_id_of (py "https://www.xiaohongshu.com/explore/abc123"
              ++ question_mark :: py "xsec_token=X")
  = note_id_of (py "https://www.xiaohongshu.com/explore/abc123"
                ++ question_mark :: py "xsec_token=Y&from=feed").
Proof.
  apply (note_id_ignores_the_query (py "https://www.xiaohongshu.com/explore/abc123")
           (py "xsec_token=X") (py "xsec_token=Y&from=feed")).
  not_in_text.
Defined.

(** The markup [<![x]>], which html.parser refuses. *)
Lemma parse_failure_escapes_witness :
  parse_html init (py "<![x]>") = (init, [], Raise AttributeError).
Proof. apply (parse_failure_escapes init (py "<![x]>") ParserRejectedMarkup). reflexivity. Defined.

(** C7, as stated, fails on a hidden fragment: nothing is yielded the first
    time either.  Fragment: [<section class='note-item' style='display: none;'>]
    with a complete post inside, index empty. *)
Lemma hidden_fragment_yields_nothing : ~ extraction_idempotent.
Proof.
  intros Hclaim. destruct (Hclaim init (top hidden_post)) as [n Hn].
  rewrite (collect_one (bs := soup)) in Hn.
  assert (Hskip : note_of_item init (top hidden_post) = Return None)
    by (vm_compute; reflexivity).
  rewrite Hskip in Hn. destruct Hn as [Hn _]. discriminate.
Qed.

(** The post abc123, fed to an empty index. *)
Lemma second_feed_yields_nothing_witness :
  exists n : Note.t,
    Note.likes n = 12000 /\
    note_of_item init (top post_abc) = Return (Some n) /\
    Note.id n ∈ collected_notes (fst (fst (collect [top post_abc] init))).
Proof.
  pose proof (second_feed_yields_nothing init (top post_abc)) as Hthm.
  rewrite (collect_one (bs := soup)) in Hthm |- *.
  destruct (note_of_item _ _) as [[n|]|e] eqn:Hfirst;
    [|vm_compute in Hfirst; discriminate..].
  exists n.
  destruct Hthm as [_ Hthm]. destruct (Hthm n eq_refl) as (_ & _ & Hin).
  split; [|split; [reflexivity|exact Hin]].
  vm_compute in Hfirst. by inversion Hfirst.
Defined.

Ltac in_index :=
  match goal with
  | |- ?P => refine (bool_decide_unpack P _); vm_compute; exact I
  end.

(** The page "pair", captured a second time. *)
Lemma batch_is_emitted_once_witness :
  emitted (snd (fst (parse_html (fst (fst (parse_html init (py "pair")))) (py "pair"))))
  = [].
Proof.
  pose proof (batch_is_emitted_once (fst (fst (parse_html init (py "pair")))) (py "pair"))
    as Hthm.
  destruct (parse_html (fst (fst (parse_html init (py "pair")))) (py "pair"))
    as [[st' fx] r].
  destruct Hthm as (_ & _ & Hdup).
  destruct (Hdup (document [post_abc; post_def])) as [Hnone _];
    [vm_compute; reflexivity | | exact Hnone].
  assert (Hsel : select (document [post_abc; post_def]) sel_note_item
                 = [top post_abc; top post_def]) by (vm_compute; reflexivity).
  intros item Hitem. rewrite Hsel in Hitem.
  apply elem_of_cons in Hitem as [->|Hitem];
    [|apply list_elem_of_singleton in Hitem as ->];
    eexists _, _, _, _;
    (split; [vm_compute; reflexivity|]);
    (split; [vm_compute; reflexivity|]);
    (split; [vm_compute; reflexivity|]);
    (split; [vm_compute; reflexivity|in_index]).
Defined.

(** The id of the post abc123, once the page "feed" has been captured. *)
Lemma dedup_index_only_grows_witness :
  Forall (fun notes => py "e99a18c4" ∉ Note.id <$> notes)
         (emitted (snd (run_passes [py "partial"; py "feed"]
                                   (fst (fst (parse_html init (py "feed"))))))).
Proof.
  apply Forall_forall. intros notes Hnotes.
  apply (dedup_index_only_grows (fst (fst (parse_html init (py "feed"))))
           [py "partial"; py "feed"] (py "e99a18c4")); [in_index|exact Hnotes].
Defined.

(** C4: a post whose [.like-wrapper] has no [.count] inside makes
    [_extract_note_info] raise instead of falling back to "0": the first
    post of the page "partial" is logged and lost, while its sibling is
    still extracted and emitted. *)
Theorem missing_count_loses_the_post :
  _extract_note_info (top (post_without_count "/explore/abc123?xsec_token=X"))
                     base_url (py "e99a18c4")
                     (py "https://www.xiaohongshu.com/explore/abc123?xsec_token=X")
                     1700000000
  = Raise AttributeError /\
  snd (fst (parse_html init (py "partial")))
  = [log_error AttributeError; dataCaptured [note_def 1700000000];
     status_text 1 1; progress_value 100; progress_later 1500 80] /\
  snd (parse_html init (py "partial")) = Return ().
Proof. repeat split; vm_compute; reflexivity. Qed.

(** C5: the text "-5" is a number for [float], and [int] keeps its sign:
    the normalizer returns -5, and the record of the page "minus" is
    emitted with that count, below the 0 that [NoteItem.likes] demands. *)
Theorem negative_like_count :
  (forall db : UnicodeDB, @_parse_like_count db (py "-5") = Return (-5)) /\
  map (map Note.likes) (emitted (snd (fst (parse_html init (py "minus"))))) = [[-5]].
Proof. split; [intros db; apply like_count_minus_5|vm_compute; reflexivity]. Qed.

End OnThePages.


(** ** The sign of a like count *)


Lemma div_rne_nonneg (n d : Z) : 0 <= n -> 0 < d -> 0 <= div_rne n d.
Proof.
  intros Hn Hd. unfold div_rne.
  assert (0 <= n / d) by (apply Z.div_pos; lia).
  repeat case_match; lia.
Qed.

Lemma round_not_negative (n d : Z) : 0 <= n -> 0 < d -> not_negative (round false n d).
Proof.
  intros Hn Hd. unfold round.
  destruct (n =? 0); [simpl; lia|].
  set (e := Z.max (ilog2 n d - 52) (-1074)).
  assert (Hm : 0 <= (if 0 <=? e then div_rne n (d * 2 ^ e) else div_rne (n * 2 ^ (- e)) d)).
  { destruct (Z.leb_spec 0 e).
    - apply div_rne_nonneg; [done|]. assert (0 < 2 ^ e) by (apply Z.pow_pos_nonneg; lia). nia.
    - apply div_rne_nonneg; [|done]. assert (0 < 2 ^ (- e)) by (apply Z.pow_pos_nonneg; lia). nia. }
  destruct (_ =? 2 ^ 53); destruct (971 <? _); simpl; try done; lia.
Qed.

Lemma fmul_not_negative (x : pyfloat) (k : Z) :
  0 < k < 2 ^ 53 -> not_negative x -> not_negative (fmul x (of_Z k)).
Proof.
  intros Hk Hx. rewrite of_Z_exact by lia.
  assert (Hpos : 0 < k * 2 ^ (52 - Z.log2 k)).
  { assert (Z.log2 k < 53) by (apply Z.log2_lt_pow2; lia).
    assert (0 < 2 ^ (52 - Z.log2 k)) by (apply Z.pow_pos_nonneg; lia). nia. }
  destruct x as [m e|neg|]; simpl in *; [|subst neg|done].
  - set (m' := m * (k * 2 ^ (52 - Z.log2 k))).
    assert (0 <= m') by (subst m'; nia).
    destruct (Z.ltb_spec m' 0); [lia|]. rewrite Z.abs_eq by lia.
    destruct (Z.leb_spec 0 (e + (Z.log2 k - 52))).
    + apply round_not_negative; [|lia].
      assert (0 <= 2 ^ (e + (Z.log2 k - 52))) by (apply Z.pow_nonneg; lia). nia.
    + apply round_not_negative; [done|]. apply Z.pow_pos_nonneg; lia.
  - destruct (Z.eqb_spec (k * 2 ^ (52 - Z.log2 k)) 0); [lia|].
    simpl. destruct (Z.ltb_spec (k * 2 ^ (52 - Z.log2 k)) 0); [lia|done].
Qed.

Lemma parse_sign_cases (s : str) :
  (exists r, s = 45%N :: r /\ parse_sign s = (true, r)) \/
  (exists r, s = 43%N :: r /\ parse_sign s = (false, r)) \/
  parse_sign s = (false, s).
Proof.
  destruct s as [|c r]; [by right; right|].
  destruct (N.eq_dec c 45%N) as [->|H45]; [left; by eexists|].
  destruct (N.eq_dec c 43%N) as [->|H43]; [right; left; by eexists|].
  right; right. unfold parse_sign.
  destruct c as [|p]; [done|].
  do 6 (destruct p as [p|p|]; try done).
Qed.

Lemma span_digits_decimal (s : str) :
  Forall is_decimal_digit (fst (span_digits s)).
Proof.
  induction s as [|c s IH]; simpl; [constructor|].
  destruct (is_digit c) eqn:Hc; [|constructor].
  destruct (span_digits s) as [ds r]. simpl in *. constructor; [|done].
  apply is_digit_range in Hc. unfold is_decimal_digit. lia.
Qed.

Lemma decimal_not_negative (ds : list Z) (exp10 : Z) :
  Forall is_decimal_digit ds -> not_negative (decimal false ds exp10).
Proof.
  intros Hds. pose proof (digits_value_nonneg ds Hds) as Hv. unfold decimal.
  destruct (Z.leb_spec 0 exp10).
  - apply round_not_negative; [|lia].
    assert (0 <= 10 ^ exp10) by (apply Z.pow_nonneg; lia). nia.
  - apply round_not_negative; [done|]. apply Z.pow_pos_nonneg; lia.
Qed.

Lemma fraction_decimal (r1 : str) :
  Forall is_decimal_digit
    (fst (match r1 with 46%N :: t => span_digits t | _ => ([], r1) end)).
Proof.
  destruct r1 as [|c t]; [constructor|].
  destruct (N.eq_dec c 46%N) as [->|]; [apply span_digits_decimal|].
  destruct c as [|p]; [constructor|].
  do 6 (destruct p as [p|p|]; try constructor); done.
Qed.

Lemma parse_exponent_not_negative (ds : list Z) (nfrac : Z) (s : str) (x : pyfloat) :
  Forall is_decimal_digit ds ->
  parse_exponent false ds nfrac s = Some x -> not_negative x.
Proof.
  intros Hds. unfold parse_exponent. destruct s as [|c t].
  - intros [= <-]. by apply decimal_not_negative.
  - destruct (_ || _); [|done]. destruct (parse_sign t) as [eneg t1].
    destruct (span_digits t1) as [[|e0 ed] [|? ?]]; try done.
    intros [= <-]. by apply decimal_not_negative.
Qed.

(** Without a leading '-', a literal is not negative. *)
Lemma parse_literal_not_negative (s : str) (x : pyfloat) :
  hd 0%N s <> minus_sign -> parse_literal s = Some x -> not_negative x.
Proof.
  intros Hs. unfold parse_literal.
  assert (Hbody : forall r,
    (if bool_decide (map lower r = py "inf") || bool_decide (map lower r = py "infinity")
     then Some (Inf false)
     else if bool_decide (map lower r = py "nan") then Some NaN
     else let '(ip, r1) := span_digits r in
          let '(fp, r2) := match r1 with
                           | 46%N :: t => span_digits t
                           | _ => ([], r1)
                           end in
          match ip ++ fp with
          | [] => None
          | ds => parse_exponent false ds (Z.of_nat (length fp)) r2
          end) = Some x -> not_negative x).
  { intros r. destruct (_ || _); [by intros [= <-]|].
    destruct (bool_decide _); [by intros [= <-]|].
    pose proof (span_digits_decimal r) as Hip.
    destruct (span_digits r) as [ip r1]. simpl in Hip.
    pose proof (fraction_decimal r1) as Hfp.
    destruct (match r1 with 46%N :: t => span_digits t | _ => ([], r1) end) as [fp r2].
    simpl in Hfp.
    assert (Hds : Forall is_decimal_digit (ip ++ fp)) by (by apply Forall_app).
    destruct (ip ++ fp) as [|d ds] eqn:Hcat; [done|].
    by apply parse_exponent_not_negative. }
  destruct (parse_sign_cases s) as [(r & -> & _)|[(r & -> & ->)| ->]].
  - done.
  - apply Hbody.
  - apply Hbody.
Qed.

(** ** What the string operations keep *)

Lemma elem_of_rev (c : char) (s : str) : c ∈ rev s <-> c ∈ s.
Proof. rewrite !list_elem_of_In. symmetry. apply in_rev. Qed.

Lemma replace_drop_subset (old c : char) (s : str) : c ∈ replace old [] s -> c ∈ s.
Proof.
  induction s as [|x s IH]; [done|]. simpl.
  destruct (x =? old)%N; simpl; [right; auto|].
  intros [->|Hc]%elem_of_cons; [left|right; auto].
Qed.

Lemma lstrip_subset (c : char) (s : str) : c ∈ lstrip s -> c ∈ s.
Proof.
  induction s as [|x s IH]; [done|]. simpl.
  destruct (isspace x); [right; auto|done].
Qed.

Lemma strip_subset (c : char) (s : str) : c ∈ strip s -> c ∈ s.
Proof.
  unfold strip, rstrip. intros Hc.
  apply lstrip_subset. apply elem_of_rev. apply lstrip_subset. by apply elem_of_rev.
Qed.

Lemma float_operand_subset (c : char) (text : str) : c ∈ float_operand text -> c ∈ text.
Proof.
  unfold float_operand. intros Hc.
  apply (replace_drop_subset plus_sign), strip_subset.
  destruct (contains_char wan _); [by apply replace_drop_subset in Hc|].
  destruct (contains_char qian _); [by apply replace_drop_subset in Hc|done].
Qed.

Lemma lstrip_ascii_subset (c : char) (s : str) : c ∈ lstrip_ascii s -> c ∈ s.
Proof.
  induction s as [|x s IH]; [done|]. simpl.
  destruct (ascii_space x); [right; auto|done].
Qed.

Lemma strip_ascii_subset (c : char) (s : str) : c ∈ strip_ascii s -> c ∈ s.
Proof.
  unfold strip_ascii. intros Hc.
  apply lstrip_ascii_subset. apply elem_of_rev. apply lstrip_ascii_subset.
  by apply elem_of_rev.
Qed.

Lemma drop_underscores_subset (prev c : char) (s s' : str) :
  drop_underscores prev s = Some s' -> c ∈ s' -> c ∈ s.
Proof.
  revert prev s'. induction s as [|x s IH]; intros prev s'; simpl.
  - destruct (prev =? 95)%N; [done|]. by intros [= <-].
  - destruct (x =? 95)%N.
    + destruct (is_digit prev); [|done]. intros Hs Hc. right. eauto.
    + destruct (_ && _); [done|].
      destruct (drop_underscores x s) as [t|] eqn:Ht; [|done].
      intros [= <-] [->|Hc]%elem_of_cons; [left|right; eauto].
Qed.

Section Signs.
Context {db : UnicodeDB}.

Lemma transform_chars_no_minus (s : str) : minus_sign ∉ s -> minus_sign ∉ transform_chars s.
Proof.
  induction s as [|x s IH]; [done|]. intros [Hx Hs]%not_elem_of_cons. simpl.
  destruct (x <? 127)%N.
  - apply not_elem_of_cons. auto.
  - destruct (isspace x).
    + apply not_elem_of_cons. split; [done|auto].
    + destruct (todecimal x) as [d|].
      * apply not_elem_of_cons. split; [unfold minus_sign; lia|auto].
      * by intros [?|?%elem_of_nil]%elem_of_cons.
Qed.

Lemma transform_no_minus (s : str) : minus_sign ∉ s -> minus_sign ∉ transform s.
Proof.
  unfold transform. case_match; [done|apply transform_chars_no_minus].
Qed.

(** [float] only ever raises [ValueError]. *)
Lemma py_float_raises (text : str) (e : exc) : py_float text = Raise e -> e = ValueError.
Proof.
  unfold py_float. destruct (drop_underscores _ _); [|by intros [= <-]].
  destruct (parse_literal _); [done|by intros [= <-]].
Qed.

Lemma py_float_not_negative (text : str) (x : pyfloat) :
  minus_sign ∉ text -> py_float text = Return x -> not_negative x.
Proof.
  intros Htext. unfold py_float.
  destruct (drop_underscores _ _) as [s|] eqn:Hs; [|done].
  destruct (parse_literal _) as [y|] eqn:Hy; [|done]. intros [= <-].
  refine (parse_literal_not_negative _ _ _ Hy).
  assert (Hno : minus_sign ∉ strip_ascii s).
  { intros Hin%strip_ascii_subset.
    apply (drop_underscores_subset _ _ _ _ Hs) in Hin.
    by apply transform_no_minus in Hin. }
  destruct (strip_ascii s) as [|c t]; [done|].
  simpl. intros ->. apply Hno. left.
Qed.

Lemma py_int_not_negative (x : pyfloat) (n : Z) :
  not_negative x -> or_zero (py_int x) = Return n -> 0 <= n.
Proof.
  destruct x as [m e|neg|]; simpl; [|done|by intros _ [= <-]].
  intros Hm [= <-]. destruct (Z.leb_spec 0 e).
  - assert (0 <= 2 ^ e) by (apply Z.pow_nonneg; lia). nia.
  - apply Z.quot_pos; [done|]. apply Z.pow_pos_nonneg; lia.
Qed.

(** X1: a like text without a minus sign never gives a negative count. *)
Theorem like_count_without_minus (text : str) (n : Z) :
  minus_sign ∉ text -> _parse_like_count text = Return n -> 0 <= n.
Proof.
  intros Htext. rewrite parse_like_count_unfold.
  assert (Hop : minus_sign ∉ float_operand text)
    by (intros Hin; by apply float_operand_subset in Hin).
  destruct (py_float (float_operand text)) as [x|e] eqn:Hx.
  - apply (py_float_not_negative _ _ Hop) in Hx. simpl.
    apply py_int_not_negative.
    destruct (contains_char wan _); [apply fmul_not_negative; [lia|done]|].
    destruct (contains_char qian _); [apply fmul_not_negative; [lia|done]|done].
  - apply py_float_raises in Hx as ->. simpl. by intros [= <-].
Qed.

(** X2: the normalizer lets no exception out but [OverflowError], and that
    only for a text whose number [float] accepts. *)
Theorem like_count_raises_only_overflow (text : str) (e : exc) :
  _parse_like_count text = Raise e ->
  e = OverflowError /\ exists x, py_float (float_operand text) = Return x.
Proof.
  rewrite parse_like_count_unfold.
  destruct (py_float (float_operand text)) as [x|e'] eqn:Hx.
  - simpl. intros Hraise. split; [|by exists x].
    assert (Hint : forall y, or_zero (py_int y) = Raise e -> e = OverflowError).
    { intros [m k|[]|]; simpl; try done; by intros [= <-]. }
    repeat case_match; by apply Hint in Hraise.
  - apply py_float_raises in Hx as ->. done.
Qed.

End Signs.

(** ** More on the pacer *)

Section PacerMoreFacts.
Import AutoScrollController PacerMore.

Lemma step_keeps_settings (w : world) (ev : event) :
  last_height (ctl (step w ev)) = last_height (ctl w) /\
  retry_count (ctl (step w ev)) = retry_count (ctl w) /\
  interval (timer (ctl (step w ev))) = interval (timer (ctl w)).
Proof.
  rewrite step_ctl. destruct ev; try done; unfold start, stop;
    destruct (active (ctl w)); done.
Qed.

(** X3: no event changes [last_height], [retry_count] or the interval of
    the timer: they stay 0, 0 and 3000 ms. *)
Theorem settings_never_change (evs : list event) :
  last_height (ctl (run evs init)) = 0 /\
  retry_count (ctl (run evs init)) = 0 /\
  interval (timer (ctl (run evs init))) = 3000.
Proof.
  assert (Hgen : forall w,
            last_height (ctl (run evs w)) = last_height (ctl w) /\
            retry_count (ctl (run evs w)) = retry_count (ctl w) /\
            interval (timer (ctl (run evs w))) = interval (timer (ctl w))).
  { induction evs as [|ev evs IH]; intros w; [done|]. simpl.
    destruct (IH (step w ev)) as (-> & -> & ->). apply step_keeps_settings. }
  apply (Hgen init).
Qed.

Lemma quiet_pacer_step (w : world) (ev : event) :
  timer_follows_flag w -> active (ctl w) = false ->
  in_flight w = 0%nat -> single_shots w = 0%nat ->
  is_start ev = false -> step w ev = w.
Proof.
  intros Hflag Hidle Hfl Hshots Hev. destruct ev; simpl; try done.
  - by apply stop_idle.
  - rewrite Hflag, Hidle. done.
  - by rewrite Hfl.
  - by rewrite Hshots.
Qed.

(** X4: once the pacer is idle and nothing is pending (no script in flight,
    no retry booked), nothing happens until the next [start]: every trace
    without a [start] leaves the pacer as it is. *)
Theorem idle_and_drained_stays_quiet (before after : list event) :
  let w := run before init in
  active (ctl w) = false -> in_flight w = 0%nat -> single_shots w = 0%nat ->
  forallb (fun ev => negb (is_start ev)) after = true ->
  run after w = w.
Proof.
  intros w Hidle Hfl Hshots.
  assert (Hflag : timer_follows_flag w) by (by apply run_timer_follows_flag).
  clearbody w. induction after as [|ev after IH]; [done|].
  simpl. intros [Hev Hafter]%andb_true_iff.
  rewrite (quiet_pacer_step w ev) by (try done; by destruct ev). by apply IH.
Qed.

Lemma loading_report_is_dict (r : report) :
  reports_loading r = true ->
  exists fields, r = Dict fields /\ fields <> ∅.
Proof.
  destruct r as [fields|]; [|done]. simpl. intros Hload.
  exists fields. split; [done|]. intros ->. by rewrite lookup_empty in Hload.
Qed.

(** X5: the retry has no cap: while the reports say loading, each report
    calls the capture callback and books a retry, and the retry hands the
    next script to the page, whether the pacer is active or not. *)
Theorem retry_chain_has_no_end (w : world) (r : report) (n : nat) :
  reports_loading r = true -> (0 < in_flight w)%nat ->
  let w' := run (retry_rounds r n) w in
  ctl w' = ctl w /\
  in_flight w' = in_flight w /\
  single_shots w' = single_shots w /\
  callback_calls w' = (callback_calls w + n)%nat.
Proof.
  intros Hload. destruct (loading_report_is_dict r Hload) as (fields & -> & Hne).
  simpl in Hload.
  revert w. induction n as [|n IH]; intros w Hfl; simpl.
  - repeat split; lia.
  - destruct (in_flight w) as [|k] eqn:Hk; [lia|].
    unfold _handle_scroll. rewrite bool_decide_false, Hload by done. simpl.
    set (w1 := _scroll_step _).
    destruct (IH w1) as (Hctl & Hfl' & Hshots & Hcalls); [simpl; lia|].
    change (fold_left step (retry_rounds (Dict fields) n) w1)
      with (run (retry_rounds (Dict fields) n) w1).
    rewrite Hctl, Hfl', Hshots, Hcalls. subst w1. simpl. repeat split; lia.
Qed.

End PacerMoreFacts.


(** ** The ids and the records of a session *)


Section Md5Facts.
Import Md5.

Lemma le_bytes_length (n : nat) (z : Z) : length (le_bytes n z) = n.
Proof. unfold le_bytes. by rewrite length_map, length_seq. Qed.

Lemma le_bytes_range (n : nat) (z : Z) : Forall (fun b => 0 <= b < 256) (le_bytes n z).
Proof.
  unfold le_bytes. apply Forall_map, Forall_forall. intros i _. simpl.
  apply Z.mod_pos_bound. lia.
Qed.

Lemma digest_bytes (msg : list Z) :
  length (digest msg) = 16%nat /\ Forall (fun b => 0 <= b < 256) (digest msg).
Proof.
  unfold digest. destruct (fold_left _ _ _) as [[[a b] c] d].
  split.
  - by rewrite !length_app, !le_bytes_length.
  - repeat (apply Forall_app; split); apply le_bytes_range.
Qed.

Lemma hex_digit_is_hex (z : Z) : 0 <= z < 16 -> is_hex_digit (hex_digit z) = true.
Proof.
  intros Hz. unfold hex_digit, is_hex_digit.
  destruct (Z.ltb_spec z 10).
  - apply orb_true_iff. left. apply andb_true_iff. split; apply N.leb_le; lia.
  - apply orb_true_iff. right. apply andb_true_iff. split; apply N.leb_le; lia.
Qed.

(** A digest prints as 32 lowercase hexadecimal digits. *)
Lemma hexdigest_shape (data : list N) :
  length (hexdigest data) = 32%nat /\ forallb is_hex_digit (hexdigest data) = true.
Proof.
  unfold hexdigest. destruct (digest_bytes (map Z.of_N data)) as [Hlen Hrange].
  revert Hlen Hrange. generalize (digest (map Z.of_N data)) as bs.
  assert (Hgen : forall bs : list Z, Forall (fun b => 0 <= b < 256) bs ->
            length (flat_map (fun b => [hex_digit (b / 16); hex_digit (b mod 16)]) bs)
            = (2 * length bs)%nat /\
            forallb is_hex_digit
              (flat_map (fun b => [hex_digit (b / 16); hex_digit (b mod 16)]) bs) = true).
  { induction 1 as [|b bs Hb _ [IHlen IHhex]]; [done|]. simpl. split; [lia|].
    rewrite IHhex, !hex_digit_is_hex; [done| |].
    - apply Z.mod_pos_bound. lia.
    - split; [apply Z.div_pos; lia|apply Z.div_lt_upper_bound; lia]. }
  intros bs Hlen Hrange. destruct (Hgen bs Hrange) as [-> ?]. split; [lia|done].
Qed.

End Md5Facts.

Section PassMoreFacts.
Import BrowserTab BrowserTabMore.
Context {db : UnicodeDB} {bs : Bs4} {env : Env}.

Lemma encode_raises (s : str) (e : exc) : encode s = Raise e -> e = UnicodeEncodeError.
Proof.
  induction s as [|c s IH]; [done|]. simpl.
  destruct (encode_char c) as [b|e'] eqn:Hc; simpl.
  - destruct (encode s) as [b'|e'']; [done|]. simpl. intros [= <-]. by apply IH.
  - intros [= <-]. unfold encode_char in Hc. repeat case_match; congruence.
Qed.

(** The shape of an id. *)
Lemma note_id_of_Return (full_url note_id : str) :
  note_id_of full_url = Return note_id ->
  length note_id = 8%nat /\ forallb is_hex_digit note_id = true.
Proof.
  unfold note_id_of. destruct (encode _) as [data|e]; [|done]. simpl. intros [= <-].
  destruct (hexdigest_shape data) as [Hlen Hhex]. split.
  - rewrite length_take. lia.
  - rewrite forallb_forall in *. intros c Hc. apply Hhex.
    apply list_elem_of_In. apply list_elem_of_In in Hc.
    by apply (subseteq_take 8) in Hc.
Qed.

(** X6: the short id is made of exactly 8 lowercase hexadecimal digits; the
    derivation fails only with [UnicodeEncodeError]. *)
Theorem note_id_shape (full_url : str) :
  match note_id_of full_url with
  | Return note_id => length note_id = 8%nat /\ forallb is_hex_digit note_id = true
  | Raise e => e = UnicodeEncodeError
  end.
Proof.
  destruct (note_id_of full_url) as [note_id|e] eqn:Hid.
  - by apply note_id_of_Return in Hid.
  - unfold note_id_of in Hid. destruct (encode _) as [data|e'] eqn:Hdata; [done|].
    simpl in Hid. injection Hid as <-. by apply encode_raises in Hdata.
Qed.

Lemma collect_app (l1 l2 : list Tag) (st : tab) :
  collect (l1 ++ l2) st =
    (let '(st1, notes1, fx1) := collect l1 st in
     let '(st2, notes2, fx2) := collect l2 st1 in
     (st2, notes1 ++ notes2, fx1 ++ fx2)).
Proof.
  revert st. induction l1 as [|item l1 IH]; intros st; simpl.
  - by destruct (collect l2 st) as [[st2 notes2] fx2].
  - destruct (note_of_item st item) as [[n|]|e]; rewrite ?IH;
      repeat (destruct (collect _ _) as [[? ?] ?]); done.
Qed.

Lemma hidden_is_skipped (st : tab) (item : Tag) :
  hidden item = true -> note_of_item st item = Return None.
Proof. unfold hidden, note_of_item. by intros ->. Qed.

(** X7: a fragment whose [style] contains [display: none] or
    [visibility: hidden] is passed over, whatever else it holds: the pass
    goes as if the fragment were not on the page. *)
Theorem hidden_fragment_is_invisible (before after : list Tag) (item : Tag) (st : tab) :
  hidden item = true ->
  collect (before ++ item :: after) st = collect (before ++ after) st.
Proof.
  intros Hitem. rewrite !collect_app.
  destruct (collect before st) as [[st1 notes1] fx1]. simpl.
  by rewrite hidden_is_skipped.
Qed.

(** X8: a fragment on which the extraction raises costs one log entry and
    nothing else: its siblings yield the same records, and the index ends
    the same, as on the page without it. *)
Theorem failing_fragment_is_isolated
    (before after : list Tag) (item : Tag) (st : tab) (e : exc) :
  note_of_item (fst (fst (collect before st))) item = Raise e ->
  fst (collect (before ++ item :: after) st) = fst (collect (before ++ after) st) /\
  snd (collect (before ++ item :: after) st)
  = snd (collect before st) ++ log_error e :: snd (collect after (fst (fst (collect before st)))).
Proof.
  intros Hitem. rewrite !collect_app.
  destruct (collect before st) as [[st1 notes1] fx1]. simpl in *. rewrite Hitem.
  by destruct (collect after st1) as [[st2 notes2] fx2].
Qed.

(** What a fragment that yields a record went through. *)
Lemma note_of_item_inv (st : tab) (item : Tag) (n : Note.t) :
  note_of_item st item = Return (Some n) ->
  hidden item = false /\
  note_id_of (Note.url n) = Return (Note.id n) /\
  (Note.id n ∉ collected_notes st) /\
  Note.title n = _extract_text item sel_title /\
  Note.timestamp n = time (clock_reads st).
Proof.
  unfold note_of_item, hidden. intros Hn.
  destruct (contains _ _ || contains _ _); [discriminate|].
  destruct (select_one item sel_note_link) as [note_link|]; [|discriminate].
  apply bind_Return in Hn as (href & Hhref & Hn).
  apply bind_Return in Hn as (full_url & Hurl & Hn).
  apply bind_Return in Hn as (note_id & Hid & Hn).
  case_bool_decide as Hin; [discriminate|].
  apply bind_Return in Hn as (n' & Hextract & Hn). inversion Hn; subst n'.
  unfold _extract_note_info in Hextract.
  repeat (apply bind_Return in Hextract as (? & _ & Hextract)).
  inversion Hextract; subst n; simpl. done.
Qed.

(** The records of the loop, one by one. *)
Lemma collect_records (items : list Tag) (st : tab) :
  let '(st', notes, _) := collect items st in
  clock_reads st' = (clock_reads st + length notes)%nat /\
  Note.timestamp <$> notes = time <$> seq (clock_reads st) (length notes) /\
  NoDup (Note.id <$> notes) /\
  Forall (fun n => note_id_of (Note.url n) = Return (Note.id n)
                   /\ Note.id n ∉ collected_notes st) notes.
Proof.
  revert st. induction items as [|item items IH]; intros st; simpl.
  - repeat split; [lia|constructor|constructor].
  - destruct (note_of_item st item) as [[n|]|e] eqn:Hitem.
    + apply note_of_item_inv in Hitem as (_ & Hid & Hnew & _ & Htime).
      specialize (IH {| collected_notes := collected_notes st ∪ {[ Note.id n ]};
                        clock_reads := S (clock_reads st) |}).
      destruct (collect items _) as [[st2 notes] fx]. simpl in *.
      destruct IH as (Hclock & Htimes & Hdup & Hall).
      split; [lia|]. split; [rewrite Htime; f_equal; exact Htimes|].
      split.
      * constructor; [|done]. intros (n' & Heq & Hn')%list_elem_of_fmap.
        rewrite Forall_forall in Hall. destruct (Hall n' Hn') as [_ Hout].
        apply Hout. rewrite <- Heq. by apply elem_of_union_r, elem_of_singleton.
      * constructor; [done|]. eapply Forall_impl; [exact Hall|].
        intros n' [? Hout]. split; [done|]. intros Hin. apply Hout. by apply elem_of_union_l.
    + apply IH.
    + specialize (IH st). by destruct (collect items st) as [[st2 notes] fx].
Qed.

Lemma parse_html_clock (st : tab) (html : str) :
  clock_reads (fst (fst (parse_html st html))) = (clock_reads st + length (batch st html))%nat /\
  Note.timestamp <$> batch st html = time <$> seq (clock_reads st) (length (batch st html)) /\
  NoDup (Note.id <$> batch st html) /\
  Forall (fun n => note_id_of (Note.url n) = Return (Note.id n)
                   /\ Note.id n ∉ collected_notes st) (batch st html).
Proof.
  unfold parse_html, batch. destruct (BeautifulSoup html) as [soup|e]; simpl.
  - pose proof (collect_records (select soup sel_note_item) st) as Hrec.
    by destruct (collect _ st) as [[st' notes] fx].
  - repeat split; [lia|constructor|constructor].
Qed.

(** X9: the clock is read once for each record and not otherwise: the
    records of a batch carry consecutive readings, in the order of the
    batch. *)
Theorem one_clock_reading_per_record (st : tab) (html : str) :
  clock_reads (fst (fst (parse_html st html)))
  = (clock_reads st + length (batch st html))%nat /\
  Note.timestamp <$> batch st html
  = time <$> seq (clock_reads st) (length (batch st html)).
Proof. pose proof (parse_html_clock st html). tauto. Qed.

Lemma records_of_pass (st : tab) (html : str) :
  records (snd (fst (parse_html st html))) = batch st html.
Proof.
  unfold records. destruct (parse_html_batch st html) as [[[Hb ->]|[_ ->]] _]; simpl.
  - by rewrite Hb.
  - by rewrite app_nil_r.
Qed.

Lemma records_app (fx1 fx2 : list effect) : records (fx1 ++ fx2) = records fx1 ++ records fx2.
Proof. unfold records, emitted. by rewrite omap_app, concat_app. Qed.

(** The records of a session and the index. *)
Lemma run_passes_records (htmls : list str) (st : tab) :
  collected_notes (fst (run_passes htmls st))
  = collected_notes st ∪ list_to_set (Note.id <$> records (snd (run_passes htmls st))) /\
  NoDup (Note.id <$> records (snd (run_passes htmls st))) /\
  Forall (fun n => note_id_of (Note.url n) = Return (Note.id n)
                   /\ Note.id n ∉ collected_notes st)
         (records (snd (run_passes htmls st))).
Proof.
  revert st. induction htmls as [|html htmls IH]; intros st.
  - simpl. split; [by rewrite (right_id_L ∅ (∪))|]. split; constructor.
  - rewrite run_passes_cons. simpl. rewrite records_app, records_of_pass.
    destruct (parse_html_batch st html) as [_ Hidx].
    destruct (parse_html_clock st html) as (_ & _ & Hdup & Hall).
    destruct (IH (fst (fst (parse_html st html)))) as (Hidx' & Hdup' & Hall').
    rewrite Hidx in Hidx', Hall'.
    split; [|split].
    + rewrite Hidx', fmap_app, list_to_set_app_L. by rewrite (assoc_L (∪)).
    + rewrite fmap_app. apply NoDup_app. split; [done|]. split; [|done].
      intros x Hx (n & -> & Hn)%list_elem_of_fmap.
      rewrite Forall_forall in Hall'. destruct (Hall' n Hn) as [_ Hout].
      apply Hout. apply elem_of_union_r. by apply elem_of_list_to_set.
    + apply Forall_app. split; [done|]. eapply Forall_impl; [exact Hall'|].
      intros n [? Hout]. split; [done|]. intros Hin. apply Hout. by apply elem_of_union_l.
Qed.

(** X10: over the passes of a session no id is handed to the sink twice,
    within a batch or across batches. *)
Theorem records_have_distinct_ids (htmls : list str) (st : tab) :
  NoDup (Note.id <$> records (snd (run_passes htmls st))).
Proof. by destruct (run_passes_records htmls st) as (_ & Hdup & _). Qed.

(** X11: started with an empty index, the index is the set of the ids handed
    to the sink, and its size, the total the status line shows, is the
    number of records handed over so far. *)
Theorem index_counts_the_records (htmls : list str) :
  collected_notes (fst (run_passes htmls init))
  = list_to_set (Note.id <$> records (snd (run_passes htmls init))) /\
  size (collected_notes (fst (run_passes htmls init)))
  = length (records (snd (run_passes htmls init))).
Proof.
  destruct (run_passes_records htmls init) as (Hidx & Hdup & _).
  simpl in Hidx. rewrite (left_id_L ∅ (∪)) in Hidx.
  split; [done|]. rewrite Hidx, size_list_to_set by done. by rewrite length_fmap.
Qed.

(** X12: every record handed to the sink carries the id derived from its own
    [url]. *)
Theorem record_id_comes_from_its_url (htmls : list str) (st : tab) (n : Note.t) :
  n ∈ records (snd (run_passes htmls st)) ->
  note_id_of (Note.url n) = Return (Note.id n).
Proof.
  intros Hn. destruct (run_passes_records htmls st) as (_ & _ & Hall).
  rewrite Forall_forall in Hall. by destruct (Hall n Hn) as [Hid _].
Qed.

End PassMoreFacts.


(** ** The table and the export *)

Section TableFacts.
Import NotesTable.
Context {wd : Widgets}.

Lemma dict_has_spec (key : str) (d : dict) : dict_has key d = true <-> key ∈ keys d.
Proof.
  unfold dict_has, keys. rewrite existsb_exists, list_elem_of_fmap. split.
  - intros (kv & Hin & Hkey). apply bool_decide_eq_true in Hkey.
    exists kv. split; [done|by apply list_elem_of_In].
  - intros (kv & -> & Hin). exists kv. split; [by apply list_elem_of_In|].
    by apply bool_decide_eq_true.
Qed.

Lemma dict_has_app (key : str) (d1 d2 : dict) :
  dict_has key (d1 ++ d2) = dict_has key d1 || dict_has key d2.
Proof. apply existsb_app. Qed.

Lemma dict_getitem_app_l (key : str) (d1 d2 : dict) :
  dict_has key d1 = true -> dict_getitem key (d1 ++ d2) = dict_getitem key d1.
Proof.
  unfold dict_getitem, dict_has. induction d1 as [|[k v] d1 IH]; [done|]. simpl.
  destruct (bool_decide (k = key)); [done|]. simpl. apply IH.
Qed.

Lemma dict_getitem_missing (key : str) (d : dict) :
  dict_has key d = false -> dict_getitem key d = Raise KeyError.
Proof.
  unfold dict_getitem, dict_has. induction d as [|[k v] d IH]; [done|]. simpl.
  destruct (bool_decide (k = key)); [done|]. simpl. apply IH.
Qed.

Lemma keys_entries (l : list Note.t) : keys (map entry l) = Note.id <$> l.
Proof. unfold keys. induction l as [|n l IH]; [done|]. simpl. f_equal. apply IH. Qed.

(** [update_data] only appends, a row with each entry. *)
Lemma update_data_appends (notes : list Note.t) (t : table) :
  exists added : list Note.t,
    data (fst (update_data notes t)) = data t ++ map entry added /\
    id_cells (fst (update_data notes t))
    = id_cells t ++ map (fun n => take 6 (Note.id n)) added /\
    (forall n, n ∈ added -> n ∈ notes /\ dict_has (Note.id n) (data t) = false) /\
    (snd (update_data notes t) = Return () ->
     forall n, n ∈ notes -> dict_has (Note.id n) (data (fst (update_data notes t))) = true).
Proof.
  revert t. induction notes as [|note notes IH]; intros t; simpl.
  - exists []. simpl. rewrite !app_nil_r.
    split; [done|]. split; [done|].
    split; [|intros _]; intros n Hn; by apply elem_of_nil in Hn.
  - destruct (dict_has (Note.id note) (data t)) eqn:Hhas.
    + destruct (IH t) as (added & Hdata & Hcells & Hadded & Hall).
      exists added. split; [done|]. split; [done|]. split.
      * intros n Hn. destruct (Hadded n Hn) as [Hin Hout]. split; [by right|done].
      * intros Hret n [->|Hn]%elem_of_cons; [|by apply Hall].
        by rewrite Hdata, dict_has_app, Hhas.
    + set (t1 := {| data := data t ++ [(Note.id note, note)];
                    id_cells := id_cells t ++ [take 6 (Note.id note)] |}).
      destruct (fill_row note) as [[]|e].
      * destruct (IH t1) as (added & Hdata & Hcells & Hadded & Hall). simpl in *.
        exists (note :: added). simpl. rewrite Hdata, Hcells, <- !app_assoc.
        split; [done|]. split; [done|]. split.
        -- intros n [->|Hn]%elem_of_cons; [split; [left|done]|].
           destruct (Hadded n Hn) as [Hin Hout]. split; [by right|].
           rewrite dict_has_app in Hout. by apply orb_false_iff in Hout as [? _].
        -- intros Hret n [->|Hn]%elem_of_cons.
           ++ rewrite !dict_has_app. simpl. rewrite bool_decide_true by done.
              by rewrite orb_true_r.
           ++ specialize (Hall Hret n Hn). by rewrite Hdata, <- app_assoc in Hall.
      * exists [note]. simpl. split; [done|]. split; [done|]. split; [|done].
        intros n ->%list_elem_of_singleton. split; [left|done].
Qed.

(** X13: [update_data] never touches what the table holds: an id that is
    there keeps its first record, whatever a later record with the same id
    says, and the entries and the rows of before stay, in their order. *)
Theorem first_record_wins (notes : list Note.t) (t : table) (key : str) :
  dict_has key (data t) = true ->
  dict_getitem key (data (fst (update_data notes t))) = dict_getitem key (data t) /\
  data t `prefix_of` data (fst (update_data notes t)) /\
  id_cells t `prefix_of` id_cells (fst (update_data notes t)).
Proof.
  intros Hkey. destruct (update_data_appends notes t) as (added & -> & -> & _).
  split; [by apply dict_getitem_app_l|]. split; by eexists.
Qed.

Lemma update_data_known (notes : list Note.t) (t : table) :
  (forall n, n ∈ notes -> dict_has (Note.id n) (data t) = true) ->
  update_data notes t = (t, Return ()).
Proof.
  induction notes as [|note notes IH]; intros Hall; [done|]. simpl.
  rewrite Hall by left. apply IH. intros n Hn. apply Hall. by right.
Qed.

(** X14: delivering again the notes of a call that returned changes
    nothing. *)
Theorem update_data_twice (notes : list Note.t) (t : table) :
  snd (update_data notes t) = Return () ->
  update_data notes (fst (update_data notes t)) = (fst (update_data notes t), Return ()).
Proof.
  intros Hret. apply update_data_known.
  destruct (update_data_appends notes t) as (added & _ & _ & _ & Hall). by apply Hall.
Qed.

(** The table a batch leaves when every id is new. *)
Lemma update_data_fresh (notes : list Note.t) (t : table) :
  rows_build notes ->
  NoDup (Note.id <$> notes) ->
  (forall n, n ∈ notes -> dict_has (Note.id n) (data t) = false) ->
  update_data notes t
  = ({| data := data t ++ map entry notes;
        id_cells := id_cells t ++ map (fun n => take 6 (Note.id n)) notes |}, Return ()).
Proof.
  revert t. induction notes as [|note notes IH]; intros t Hrows Hdup Hnew; simpl.
  - rewrite !app_nil_r. by destruct t.
  - apply NoDup_cons in Hdup as [Hnote Hdup].
    apply Forall_cons in Hrows as [-> Hrows].
    rewrite Hnew by left. rewrite IH; [simpl; by rewrite <- !app_assoc|done|done|].
    intros n Hn. simpl. rewrite dict_has_app, Hnew by (by right). simpl.
    rewrite bool_decide_false; [done|]. intros Heq. apply Hnote.
    apply list_elem_of_fmap. by exists n.
Qed.

Lemma deliver_fresh (batches : list (list Note.t)) (t : table) :
  rows_build (concat batches) ->
  NoDup (Note.id <$> concat batches) ->
  (forall n, n ∈ concat batches -> dict_has (Note.id n) (data t) = false) ->
  deliver_batches batches t
  = ({| data := data t ++ map entry (concat batches);
        id_cells := id_cells t ++ map (fun n => take 6 (Note.id n)) (concat batches) |},
     Return ()).
Proof.
  revert t. induction batches as [|notes batches IH]; intros t Hrows Hdup Hnew; simpl.
  - rewrite !app_nil_r. by destruct t.
  - simpl in Hdup. rewrite fmap_app in Hdup.
    apply NoDup_app in Hdup as (Hdup1 & Hdisj & Hdup2).
    apply Forall_app in Hrows as [Hrows1 Hrows2].
    unfold handle_new_data. rewrite update_data_fresh; [|done|done|].
    + rewrite IH; [simpl; by rewrite !map_app, <- !app_assoc|done|done|].
      intros n Hn. simpl. rewrite dict_has_app.
      rewrite Hnew by (apply elem_of_app; by right). simpl.
      destruct (dict_has (Note.id n) (map entry notes)) eqn:Hhas; [|done].
      apply dict_has_spec in Hhas. rewrite keys_entries in Hhas.
      exfalso. apply (Hdisj (Note.id n)); [done|].
      apply list_elem_of_fmap. by exists n.
    + intros n Hn. apply Hnew. apply elem_of_app. by left.
Qed.

Lemma update_data_cells (notes : list Note.t) (t : table) :
  cells_follow_keys t -> cells_follow_keys (fst (update_data notes t)).
Proof.
  unfold cells_follow_keys. intros Ht.
  destruct (update_data_appends notes t) as (added & -> & -> & _).
  unfold keys in *. rewrite Ht, !map_app, !map_map. reflexivity.
Qed.

Lemma update_data_keys (notes : list Note.t) (t : table) (P : str -> Prop) :
  Forall P (keys (data t)) -> Forall (fun n => P (Note.id n)) notes ->
  Forall P (keys (data (fst (update_data notes t)))).
Proof.
  intros Ht Hnotes.
  destruct (update_data_appends notes t) as (added & -> & _ & Hadded & _).
  unfold keys. rewrite map_app. apply Forall_app. split; [done|].
  fold (keys (map entry added)). rewrite keys_entries.
  apply Forall_fmap, Forall_forall. intros n Hn.
  rewrite Forall_forall in Hnotes. apply Hnotes. by apply Hadded.
Qed.

Lemma deliver_batches_inv (batches : list (list Note.t)) (t : table) (P : str -> Prop) :
  cells_follow_keys t -> Forall P (keys (data t)) ->
  Forall (fun n => P (Note.id n)) (concat batches) ->
  cells_follow_keys (fst (deliver_batches batches t)) /\
  Forall P (keys (data (fst (deliver_batches batches t)))).
Proof.
  revert t. induction batches as [|notes batches IH]; intros t Hcells Hkeys Hall; [by split|].
  simpl in *. apply Forall_app in Hall as [Hnotes Hrest].
  pose proof (update_data_cells notes t Hcells) as Hcells1.
  pose proof (update_data_keys notes t P Hkeys Hnotes) as Hkeys1.
  unfold handle_new_data. destruct (update_data notes t) as [t1 [[]|e]]; simpl in *.
  - by apply IH.
  - done.
Qed.

(** No key of 8 characters is the text of a cell. *)
Lemma show_detail_KeyError (row : nat) (shown : list str) (t : table) (cell : str) :
  cells_follow_keys t -> Forall (fun k => length k = 8%nat) (keys (data t)) ->
  shown ≡ₚ id_cells t -> shown !! row = Some cell ->
  dict_getitem cell (data t) = Raise KeyError.
Proof.
  intros Hcells Hkeys Hshown Hcell. apply dict_getitem_missing.
  destruct (dict_has cell (data t)) eqn:Hhas; [|done].
  apply dict_has_spec in Hhas.
  rewrite Forall_forall in Hkeys. pose proof (Hkeys cell Hhas) as Hlen.
  apply list_elem_of_lookup_2 in Hcell. rewrite Hshown, Hcells in Hcell.
  apply list_elem_of_fmap in Hcell as (k & -> & Hk).
  rewrite length_take in Hlen. lia.
Qed.

End TableFacts.

Lemma export_data_ids (t : NotesTable.table) :
  NotesTable.e_id <$> NotesTable.export_data t = NotesTable.keys (NotesTable.data t).
Proof.
  unfold NotesTable.export_data, NotesTable.keys.
  induction (NotesTable.data t) as [|[k v] d IH]; [done|]. simpl. f_equal. apply IH.
Qed.

Lemma export_data_length (t : NotesTable.table) :
  length (NotesTable.export_data t) = length (NotesTable.data t).
Proof. unfold NotesTable.export_data. apply length_map. Qed.

Section SessionFacts.
Import BrowserTab BrowserTabMore NotesTable.
Context {db : UnicodeDB} {bs : Bs4} {env : Env} {wd : Widgets}.

(** The table after a session: the records handed to the sink, in order. *)
Lemma session_table (htmls : list str) (st : tab) :
  rows_build (records (snd (run_passes htmls st))) ->
  deliver (snd (run_passes htmls st)) NotesTable.init
  = (table_of (records (snd (run_passes htmls st))), Return ()).
Proof.
  intros Hrows. destruct (run_passes_records htmls st) as (_ & Hdup & _).
  unfold deliver. rewrite deliver_fresh; [done|exact Hrows|exact Hdup|done].
Qed.

(** X15: when the rows can be built, the table holds one entry and one row
    for each record the passes hand over, in that order; and so does the
    export, which copies every field but [images]. *)
Theorem export_lists_each_record_once (htmls : list str) (st : tab) :
  let fx := snd (run_passes htmls st) in
  let t := fst (deliver fx NotesTable.init) in
  rows_build (records fx) ->
  data t = map entry (records fx) /\
  length (id_cells t) = length (records fx) /\
  NoDup (e_id <$> export_data t) /\
  Forall2 (fun e n => e_id e = Note.id n /\ e_title e = Note.title n /\
                      e_author e = Note.author n /\
                      e_author_link e = Note.author_link n /\
                      e_note_link e = Note.url n /\ e_likes e = Note.likes n /\
                      e_cover e = Note.cover n /\ e_timestamp e = Note.timestamp n)
          (export_data t) (records fx).
Proof.
  intros fx t Hrows. subst t fx. rewrite session_table by done. simpl.
  destruct (run_passes_records htmls st) as (_ & Hdup & _).
  split; [done|]. split; [by rewrite length_map|].
  split.
  - rewrite export_data_ids. simpl. by rewrite keys_entries.
  - unfold export_data. simpl.
    generalize (records (snd (run_passes htmls st))) as l.
    intros l. induction l as [|n l IH]; constructor; [simpl; tauto|done].
Qed.

(** X16: started with an empty index, and the rows being built, the export
    has as many objects as the index has ids, and their ids are those of
    the index. *)
Theorem export_matches_the_index (htmls : list str) :
  let st := fst (run_passes htmls BrowserTab.init) in
  let fx := snd (run_passes htmls BrowserTab.init) in
  let t := fst (deliver fx NotesTable.init) in
  rows_build (records fx) ->
  list_to_set (e_id <$> export_data t) = collected_notes st /\
  length (export_data t) = size (collected_notes st).
Proof.
  intros st fx t Hrows. subst st fx t.
  rewrite session_table by done.
  pose proof (run_passes_records htmls BrowserTab.init) as (Hidx & Hdup & _).
  simpl in Hidx. rewrite (left_id_L ∅ (∪)) in Hidx.
  rewrite export_data_ids, export_data_length. simpl. rewrite keys_entries.
  split; [done|].
  rewrite Hidx, size_list_to_set by done. by rewrite length_map, length_fmap.
Qed.

Lemma session_ids (htmls : list str) (st : tab) :
  Forall (fun n => length (Note.id n) = 8%nat)
         (concat (emitted (snd (run_passes htmls st)))).
Proof.
  destruct (run_passes_records htmls st) as (_ & _ & Hall).
  eapply Forall_impl; [exact Hall|]. intros n [Hid _].
  by apply note_id_of_Return in Hid as [? _].
Qed.

(** X17: no row of the table opens its detail dialog: the ID cell holds the
    first 6 characters of an id of 8, which is no key of the dict, so
    [show_detail] ends in [KeyError] (in [AttributeError] where there is no
    row), in whatever order the rows are shown. *)
Theorem show_detail_never_opens
    (htmls : list str) (st : tab) (shown : list str) (row : nat) :
  let t := fst (deliver (snd (run_passes htmls st)) NotesTable.init) in
  shown ≡ₚ id_cells t ->
  show_detail row shown (data t)
  = Raise (if decide (row < length (id_cells t))%nat then KeyError else AttributeError).
Proof.
  intros t Hshown.
  destruct (deliver_batches_inv (emitted (snd (run_passes htmls st))) NotesTable.init
              (fun k => length k = 8%nat)) as [Hcells Hkeys];
    [done|constructor|apply session_ids|].
  fold (deliver (snd (run_passes htmls st)) NotesTable.init) in Hcells, Hkeys.
  fold t in Hcells, Hkeys.
  unfold show_detail. destruct (shown !! row) as [cell|] eqn:Hcell.
  - pose proof (lookup_lt_Some _ _ _ Hcell) as Hlt. rewrite Hshown in Hlt.
    rewrite decide_True by done.
    by apply (show_detail_KeyError row shown).
  - apply lookup_ge_None in Hcell. rewrite Hshown in Hcell.
    rewrite decide_False by lia. done.
Qed.

End SessionFacts.


(** ** The monitoring *)

Section MonitorFacts.
Import BrowserTab BrowserTabMore Monitor.
Context {db : UnicodeDB} {bs : Bs4} {env : Env}.

(** The cases of a step. *)
Ltac tab_simpl :=
  cbn [step pacer_events snapshots scroll_controller status_checker url_input capture loads
       reloads content_probes status_probes loading_monitors direct_captures passes fx ui
       with_controller with_checker with_input load reload with_probes
       install_loading_monitor capture_data write _start_monitoring _stop_monitoring
       start_data_collection check_page_status show_page_status capture_trigger comm
       callback call_without_arguments parse_html_directly load_url on_page_loaded
       fst snd Datatypes.app Datatypes.length] in *.

Ltac by_event m ev :=
  destruct ev as [| |text|success|has_content| |loading| |reply| |html|]; tab_simpl;
  [ unfold toggle_monitoring; destruct (monitoring m) eqn:Hactive
  | idtac
  | idtac
  | destruct success
  | destruct (content_probes m) eqn:Hprobes;
    [|unfold handle_content_loaded;
      destruct (AutoScrollController.truthy has_content) eqn:Hfinds]
  | destruct (status_checker m) eqn:Hchecker
  | destruct (status_probes m) eqn:Hstatus
  | idtac
  | idtac
  | idtac
  | destruct (passes m <? capture_requests m)%nat eqn:Hasked
  | idtac ]; tab_simpl.

(** The controller after an event of the tab. *)
Lemma step_controller (m : app) (ev : event) :
  scroll_controller (step m ev)
  = AutoScrollController.run (pacer_events m ev) (scroll_controller m).
Proof. by_event m ev; reflexivity. Qed.

Lemma step_checker (m : app) (ev : event) :
  status_checker m = monitoring m ->
  status_checker (step m ev) = monitoring (step m ev).
Proof.
  intros Hm. unfold monitoring in *.
  by_event m ev; rewrite ?step_ctl, ?stop_inactive, ?start_active; try congruence.
Qed.

Lemma run_checker (evs : list event) (m : app) :
  status_checker m = monitoring m ->
  status_checker (run evs m) = monitoring (run evs m).
Proof.
  revert m. induction evs as [|ev evs IH]; intros m Hm; [done|].
  simpl. apply IH. by apply step_checker.
Qed.

Lemma run_app_events (a b : list event) (m : app) : run (a ++ b) m = run b (run a m).
Proof. unfold run. apply fold_left_app. Qed.

Lemma run_controller (evs : list event) (m : app) :
  scroll_controller (run evs m)
  = AutoScrollController.run (pacer_trace evs m) (scroll_controller m).
Proof.
  revert m. induction evs as [|ev evs IH]; intros m; [done|].
  simpl. change (fold_left step evs (step m ev)) with (run evs (step m ev)).
  by rewrite IH, step_controller, run_app.
Qed.

(** X18: the controller of the tab does what the controller does on its own
    events: a start at each answer of the content probe that finds a note, a
    stop at each click while it is active, and the ticks, reports and
    retries; so what holds of every trace of the controller holds of it
    inside the tab. *)
Theorem controller_inside_the_tab (evs : list event) :
  scroll_controller (run evs Monitor.init)
  = AutoScrollController.run (pacer_trace evs Monitor.init) AutoScrollController.init.
Proof. apply run_controller. Qed.

(** X19: the status check runs exactly while the controller is active, and
    so does the timer of the controller. *)
Theorem checker_follows_controller (evs : list event) :
  let m := run evs Monitor.init in
  status_checker m = monitoring m /\
  AutoScrollController.running
    (AutoScrollController.timer (AutoScrollController.ctl (scroll_controller m)))
  = monitoring m.
Proof.
  split; [by apply run_checker|].
  unfold monitoring. rewrite run_controller. by apply run_timer_follows_flag.
Qed.

(** X20: a click never starts the collection: after it the controller is
    idle and the status check is off, whether the click stopped the
    monitoring or asked for the page; the collection starts when the page
    has been loaded and found to hold a note. *)
Theorem click_leaves_monitoring_off (evs : list event) :
  let m := run (evs ++ [Click]) Monitor.init in
  monitoring m = false /\ status_checker m = false /\
  content_probes m = content_probes (run evs Monitor.init) /\
  loading_monitors m = loading_monitors (run evs Monitor.init).
Proof.
  intros m. subst m. rewrite run_app_events.
  pose proof (run_checker evs Monitor.init eq_refl) as Hm.
  set (m := run evs Monitor.init) in *. simpl. unfold toggle_monitoring.
  destruct (monitoring m) eqn:Ha; simpl.
  - unfold monitoring. simpl. by rewrite stop_inactive.
  - unfold monitoring in *. simpl. by rewrite Ha, <- Hm.
Qed.

Lemma quiet_tab_step (m : app) (ev : event) :
  quiet m -> finds_content ev = false -> quiet (step m ev).
Proof.
  intros (Hw & Hc & Hl & Hd & Hp & Ht & Hf) Hev. unfold quiet.
  by_event m ev; rewrite ?Hw; simpl; try done.
  - simpl in Hev. congruence.
  - unfold capture_requests in Hasked. rewrite Hp, Hw, Hd in Hasked. done.
Qed.

(** X21: until an answer of the content probe finds a note nothing is
    collected, whatever the user, the page and the timers do: the
    controller is as created, no snapshot has been asked for or parsed, the
    index is empty and nothing has been emitted.  In particular the
    notification of new content, whose callback cannot be called, asks for
    none. *)
Theorem nothing_before_content (evs : list event) :
  forallb (fun ev => negb (finds_content ev)) evs = true ->
  let m := run evs Monitor.init in
  scroll_controller m = AutoScrollController.init /\
  status_checker m = false /\
  capture_requests m = 0%nat /\ passes m = 0%nat /\
  capture m = BrowserTab.init /\ fx m = [].
Proof.
  intros Hevs m.
  assert (Hq : quiet m).
  { subst m. assert (Hinit : quiet Monitor.init) by (by repeat split).
    revert Hinit. generalize Monitor.init as m0.
    induction evs as [|ev evs IH]; intros m0 Hm0; [done|].
    simpl in Hevs. apply andb_true_iff in Hevs as [Hev Hevs].
    simpl. apply (IH Hevs). apply quiet_tab_step; [done|]. by apply negb_true_iff. }
  destruct Hq as (Hw & Hc & Hl & Hd & Hp & Ht & Hf).
  unfold capture_requests. rewrite Hw, Hd. done.
Qed.

(** X22: the reload has no cap: as long as the probe finds no note, each
    page load ends in a reload, and the controller and the passes stay as
    they are. *)
Theorem reload_loop_has_no_end
    (m : app) (has_content : AutoScrollController.jsvalue) (n : nat) :
  AutoScrollController.truthy has_content = false ->
  let m' := run (load_rounds has_content n) m in
  reloads m' = (reloads m + n)%nat /\
  content_probes m' = content_probes m /\
  scroll_controller m' = scroll_controller m /\
  status_checker m' = status_checker m /\
  capture_requests m' = capture_requests m /\
  capture m' = capture m.
Proof.
  intros Hv. revert m. induction n as [|n IH]; intros m; simpl.
  - repeat split; lia.
  - unfold handle_content_loaded. rewrite Hv.
    set (m1 := write _ _).
    change (fold_left step (load_rounds has_content n) m1)
      with (run (load_rounds has_content n) m1).
    destruct (IH m1) as (-> & -> & -> & -> & -> & ->).
    subst m1. simpl. repeat split; lia.
Qed.

(** The calls of the callback are only ever counted up. *)
Lemma controller_step_calls (w : AutoScrollController.world) (ev : AutoScrollController.event) :
  (AutoScrollController.callback_calls w
   <= AutoScrollController.callback_calls (AutoScrollController.step w ev))%nat.
Proof.
  destruct ev; simpl.
  - unfold AutoScrollController.start. by destruct (negb _).
  - unfold AutoScrollController.stop. by destruct (AutoScrollController.active _).
  - destruct (AutoScrollController.running _); [|done]. by rewrite scroll_steps_calls.
  - destruct (AutoScrollController.in_flight w); [done|].
    rewrite handle_scroll_calls. simpl. lia.
  - by destruct (AutoScrollController.single_shots w).
Qed.

Lemma step_requests (m : app) (ev : event) :
  (passes m <= capture_requests m)%nat /\ direct_captures m = loading_monitors m ->
  (passes (step m ev) <= capture_requests (step m ev))%nat /\
  direct_captures (step m ev) = loading_monitors (step m ev).
Proof.
  unfold capture_requests. intros [Hp Hd].
  by_event m ev; try done.
  - pose proof (controller_step_calls (scroll_controller m) AutoScrollController.Stop).
    simpl in *. split; [lia|done].
  - pose proof (controller_step_calls (scroll_controller m) AutoScrollController.Start).
    simpl in *. split; lia.
  - pose proof (controller_step_calls (scroll_controller m) AutoScrollController.Timeout).
    split; [lia|done].
  - pose proof (controller_step_calls (scroll_controller m)
                  (AutoScrollController.Answer reply)).
    split; [lia|done].
  - pose proof (controller_step_calls (scroll_controller m) AutoScrollController.Shot).
    split; [lia|done].
  - apply Nat.ltb_lt in Hasked. unfold capture_requests in Hasked. split; [lia|done].
Qed.

(** X23: every pass was asked for: the snapshots parsed never outnumber the
    calls of [capture_data], which are made by the reports of the scroll
    scripts and once at each start of the collection, and by nothing
    else. *)
Theorem passes_are_requested (evs : list event) :
  let m := run evs Monitor.init in
  (passes m <= AutoScrollController.callback_calls (scroll_controller m)
               + loading_monitors m)%nat /\
  direct_captures m = loading_monitors m.
Proof.
  intros m.
  assert (Hinv : (passes m <= capture_requests m)%nat /\
                 direct_captures m = loading_monitors m).
  { subst m. assert (Hinit : (passes Monitor.init <= capture_requests Monitor.init)%nat /\
                             direct_captures Monitor.init = loading_monitors Monitor.init)
      by (split; [vm_compute; lia|done]).
    revert Hinit. generalize Monitor.init as m0.
    induction evs as [|ev evs IH]; intros m0 Hm0; [done|].
    simpl. apply IH. by apply step_requests. }
  destruct Hinv as [Hp Hd]. unfold capture_requests in Hp. split; [lia|done].
Qed.

Lemma step_passes (m : app) (ev : event) :
  capture (step m ev) = fst (run_passes (snapshots [ev] m) (capture m)) /\
  fx (step m ev) = fx m ++ snd (run_passes (snapshots [ev] m) (capture m)) /\
  passes (step m ev) = (passes m + length (snapshots [ev] m))%nat.
Proof.
  by_event m ev; rewrite ?app_nil_r, ?Nat.add_0_r; try done.
  rewrite run_passes_cons. simpl. rewrite app_nil_r. repeat split; lia.
Qed.

Lemma run_passes_app (a b : list str) (st : tab) :
  run_passes (a ++ b) st
  = (fst (run_passes b (fst (run_passes a st))),
     snd (run_passes a st) ++ snd (run_passes b (fst (run_passes a st)))).
Proof.
  revert st. induction a as [|html a IH]; intros st.
  - simpl. by destruct (run_passes b st).
  - rewrite <- app_comm_cons, !run_passes_cons, IH. simpl. by rewrite app_assoc.
Qed.

Lemma run_snapshots (evs : list event) (m : app) :
  capture (run evs m) = fst (run_passes (snapshots evs m) (capture m)) /\
  fx (run evs m) = fx m ++ snd (run_passes (snapshots evs m) (capture m)) /\
  passes (run evs m) = (passes m + length (snapshots evs m))%nat.
Proof.
  revert m. induction evs as [|ev evs IH]; intros m.
  - simpl. rewrite app_nil_r. repeat split; lia.
  - change (run (ev :: evs) m) with (run evs (step m ev)).
    destruct (IH (step m ev)) as (-> & -> & ->).
    destruct (step_passes m ev) as (Ht & Hf & Hp). rewrite Ht, Hf, Hp.
    replace (snapshots (ev :: evs) m)
      with (snapshots [ev] m ++ snapshots evs (step m ev))
      by (simpl; by rewrite app_nil_r).
    rewrite run_passes_app, length_app. simpl. rewrite app_assoc.
    repeat split; lia.
Qed.

(** X24: the passes of the tab are the passes [run_passes] makes on the
    snapshots that were asked for, in their order: the index and what is
    emitted in a session are those of [run_passes]. *)
Theorem passes_of_the_tab (evs : list event) :
  let m := run evs Monitor.init in
  let htmls := snapshots evs Monitor.init in
  (capture m, fx m) = run_passes htmls BrowserTab.init /\
  passes m = length htmls /\
  collected_notes (capture m) = list_to_set (Note.id <$> records (fx m)).
Proof.
  intros m htmls. subst m htmls.
  destruct (run_snapshots evs Monitor.init) as (Ht & Hf & Hp).
  rewrite Ht, Hf, Hp. simpl.
  split; [by destruct (run_passes _ _)|]. split; [done|].
  destruct (run_passes_records (snapshots evs Monitor.init) BrowserTab.init) as (Hidx & _).
  simpl in Hidx. by rewrite (left_id_L ∅ (∪)) in Hidx.
Qed.

End MonitorFacts.


(** ** On the pages and the traces *)

Section OnThePagesMore.
Import BrowserTab BrowserTabMore NotesTable MiniSoup Fixture FixtureMore.
#[local] Existing Instances ascii_digits soup env widgets.

Ltac absent_from_text :=
  vm_compute; intros Hin;
  repeat (apply elem_of_cons in Hin as [Hin|Hin]; [discriminate|]);
  by apply elem_of_nil in Hin.

(** The text "1.2万+". *)
Lemma like_count_without_minus_witness :
  _parse_like_count (py "1.2万+") = Return 12000 /\ 0 <= 12000.
Proof.
  assert (Hcount : _parse_like_count (py "1.2万+") = Return 12000)
    by (vm_compute; reflexivity).
  split; [exact Hcount|].
  apply (like_count_without_minus (py "1.2万+") 12000); [absent_from_text|exact Hcount].
Defined.

(** The text "inf千": [float] reads an infinity, which [int] refuses. *)
Lemma like_count_raises_only_overflow_witness :
  _parse_like_count (py "inf千") = Raise OverflowError /\
  exists x, py_float (float_operand (py "inf千")) = Return x.
Proof.
  assert (Hraise : _parse_like_count (py "inf千") = Raise OverflowError)
    by (vm_compute; reflexivity).
  split; [exact Hraise|].
  exact (proj2 (like_count_raises_only_overflow (py "inf千") OverflowError Hraise)).
Defined.

(** The first of the two fragments is hidden. *)
Lemma hidden_fragment_is_invisible_witness :
  collect ([top post_abc] ++ top hidden_post :: [top post_def]) BrowserTab.init
  = collect ([top post_abc] ++ [top post_def]) BrowserTab.init.
Proof.
  apply (hidden_fragment_is_invisible (bs := soup) [top post_abc] [top post_def] (top hidden_post)
           BrowserTab.init).
  vm_compute. reflexivity.
Defined.

(** The post without a count between two complete posts. *)
Lemma failing_fragment_is_isolated_witness :
  fst (collect ([top post_abc]
                ++ top (post_without_count "/explore/xyz000?xsec_token=V")
                   :: [top post_def]) BrowserTab.init)
  = fst (collect ([top post_abc] ++ [top post_def]) BrowserTab.init).
Proof.
  apply (failing_fragment_is_isolated (bs := soup) [top post_abc] [top post_def]
           (top (post_without_count "/explore/xyz000?xsec_token=V"))
           BrowserTab.init AttributeError).
  vm_compute. reflexivity.
Defined.

(** The record of the post def456 on the page "feed". *)
Lemma record_id_comes_from_its_url_witness :
  note_id_of (Note.url (note_def 1700000001)) = Return (Note.id (note_def 1700000001)).
Proof.
  apply (record_id_comes_from_its_url [py "feed"] BrowserTab.init (note_def 1700000001)).
  vm_compute. right. left.
Defined.

(** The record of def456 is in the table; one of the same id arrives. *)
Lemma first_record_wins_witness :
  dict_getitem (py "f26c2f43")
    (data (fst (update_data [note_def_again] (table_of [note_def 1700000001]))))
  = Return (note_def 1700000001).
Proof.
  destruct (first_record_wins [note_def_again] (table_of [note_def 1700000001])
              (py "f26c2f43")) as [Hget _]; [vm_compute; reflexivity|].
  rewrite Hget. vm_compute. reflexivity.
Defined.

(** The batch of the page "pair", delivered twice. *)
Lemma update_data_twice_witness :
  let notes := batch BrowserTab.init (py "pair") in
  update_data notes (fst (update_data notes NotesTable.init))
  = (fst (update_data notes NotesTable.init), Return ()).
Proof.
  intros notes.
  apply (update_data_twice notes NotesTable.init). vm_compute. reflexivity.
Defined.

(** The pages "feed" and "pair" one after the other. *)
Lemma export_lists_each_record_once_witness :
  e_id <$> export_data
             (fst (deliver (snd (run_passes [py "feed"; py "pair"] BrowserTab.init))
                           NotesTable.init))
  = [py "e99a18c4"; py "f26c2f43"].
Proof.
  destruct (export_lists_each_record_once [py "feed"; py "pair"] BrowserTab.init)
    as [Hdata _]; [vm_compute; repeat constructor|].
  unfold export_data. rewrite Hdata. vm_compute. reflexivity.
Defined.

Lemma export_matches_the_index_witness :
  length (export_data
            (fst (deliver (snd (run_passes [py "partial"; py "feed"] BrowserTab.init))
                          NotesTable.init)))
  = size (collected_notes (fst (run_passes [py "partial"; py "feed"] BrowserTab.init))).
Proof.
  apply (export_matches_the_index [py "partial"; py "feed"]).
  vm_compute. repeat constructor.
Defined.

(** The rows of the page "feed", shown in the reverse order. *)
Lemma show_detail_never_opens_witness :
  show_detail 0 [py "f26c2f"; py "e99a18"]
    (data (fst (deliver (snd (run_passes [py "feed"] BrowserTab.init)) NotesTable.init)))
  = Raise KeyError.
Proof.
  rewrite (show_detail_never_opens [py "feed"] BrowserTab.init
             [py "f26c2f"; py "e99a18"] 0).
  - vm_compute. reflexivity.
  - vm_compute. apply perm_swap.
Defined.

End OnThePagesMore.

Section OnTheTraces.
Import AutoScrollController PacerMore.

(** A collection that was stopped after its report; then a tick, a late
    report, a shot and a second stop. *)
Lemma idle_and_drained_stays_quiet_witness :
  run [Timeout; Answer NotADict; Shot; Stop]
      (run [Start; Timeout; Answer (page_report 900 12 false); Stop] init)
  = run [Start; Timeout; Answer (page_report 900 12 false); Stop] init.
Proof.
  apply (idle_and_drained_stays_quiet
           [Start; Timeout; Answer (page_report 900 12 false); Stop]
           [Timeout; Answer NotADict; Shot; Stop]); reflexivity.
Defined.

(** Three rounds of a loading report after one tick. *)
Lemma retry_chain_has_no_end_witness :
  callback_calls (run (retry_rounds (page_report 1000 20 true) 3)
                      (run [Start; Timeout] init)) = 3%nat.
Proof.
  destruct (retry_chain_has_no_end (run [Start; Timeout] init)
              (page_report 1000 20 true) 3) as (_ & _ & _ & Hcalls);
    [vm_compute; reflexivity | vm_compute; lia | exact Hcalls].
Defined.

End OnTheTraces.

Section OnTheTab.
Import BrowserTab Monitor Fixture.
#[local] Existing Instances ascii_digits soup env.

(** The page never shows a note: clicks, loads, ticks and a notification. *)
Lemma nothing_before_content_witness :
  fx (run [LoadFinished true; ContentProbe (AutoScrollController.JBool false);
           Click; LoadFinished true; ContentProbe AutoScrollController.JNull;
           Tick; NewContent; Html (py "feed")] Monitor.init) = [].
Proof.
  apply (nothing_before_content
           [LoadFinished true; ContentProbe (AutoScrollController.JBool false);
            Click; LoadFinished true; ContentProbe AutoScrollController.JNull;
            Tick; NewContent; Html (py "feed")]).
  reflexivity.
Defined.

(** Three loads of a page without a note. *)
Lemma reload_loop_has_no_end_witness :
  reloads (run (load_rounds (AutoScrollController.JBool false) 3) Monitor.init)
  = (reloads Monitor.init + 3)%nat.
Proof.
  exact (proj1 (reload_loop_has_no_end Monitor.init (AutoScrollController.JBool false) 3
                  eq_refl)).
Defined.

End OnTheTab.
